(** * ScriptCreatorMultiGraph: a shallow embedding and its properties

    Source: [scrapegraphai/graphs/script_creator_multi_graph.py].

    The class wires a per-URL iterator node and a merge node into a
    two-node graph, keeps deep copies of the caller's configuration and
    schema, and runs the graph.  Python objects that can be aliased and
    mutated (dicts, lists) live in an explicit heap; the pipeline objects
    live in a store of their own, so that "the same graph object" is a
    statement about an identifier. *)

From Stdlib Require Import Ascii String.
From stdpp Require Import gmap strings list fin_maps.

Set Warnings "-register-all".

Open Scope string_scope.
Open Scope list_scope.

(** ** Python values and the object heap *)

Abbreviation addr := nat.

(** Immediate values and references.  [VClass] is a class object (the
    sub-graph class handed to the iterator, a pydantic schema class);
    [copy.deepcopy] treats classes as atoms. *)
Inductive value : Type :=
| VNone
| VBool (b : bool)
| VInt (z : Z)
| VStr (s : string)
| VClass (name : string)
| VRef (a : addr).

(** A Python dict keeps insertion order, so it is an association list. *)
Inductive obj : Type :=
| ODict (kvs : list (string * value))
| OList (vs : list value).

Abbreviation heap := (list obj).
Abbreviation memo := (gmap addr addr).

Global Instance value_eq_dec : EqDecision value.
Proof. solve_decision. Defined.

Global Instance obj_eq_dec : EqDecision obj.
Proof. solve_decision. Defined.

Definition obj_values (o : obj) : list value :=
  match o with
  | ODict kvs => kvs.*2
  | OList vs => vs
  end.

Definition obj_map (f : value -> value) (o : obj) : obj :=
  match o with
  | ODict kvs => ODict (prod_map id f <$> kvs)
  | OList vs => OList (f <$> vs)
  end.

(** The object [o] with its element values replaced, positionally. *)
Definition obj_with (o : obj) (vs : list value) : obj :=
  match o with
  | ODict kvs => ODict (zip (kvs.*1) vs)
  | OList _ => OList vs
  end.

Definition blank (o : obj) : obj :=
  match o with
  | ODict _ => ODict []
  | OList _ => OList []
  end.

Definition alloc (h : heap) (o : obj) : heap * addr := (h ++ [o], length h).

(** [d.get(k)] on an association list. *)
Fixpoint dict_get (kvs : list (string * value)) (k : string) : option value :=
  match kvs with
  | [] => None
  | (k', v) :: rest => if String.eqb k k' then Some v else dict_get rest k
  end.

(** [d[k] = v]: overwrite in place, or append a new key. *)
Fixpoint dict_set (kvs : list (string * value)) (k : string) (v : value)
  : list (string * value) :=
  match kvs with
  | [] => [(k, v)]
  | (k', v') :: rest =>
      if String.eqb k k' then (k', v) :: rest else (k', v') :: dict_set rest k v
  end.

(** ** [copy.deepcopy]

    The copy keeps a memo from the identity of each visited object to its
    copy, registers the (still empty) copy before descending, and fills it
    afterwards, as [_deepcopy_dict] and [_deepcopy_list] do.  Immediate
    values and classes are returned as they are. *)

Fixpoint copy_list (cp : heap -> memo -> value -> option (heap * memo * value))
    (h : heap) (m : memo) (vs : list value) : option (heap * memo * list value) :=
  match vs with
  | [] => Some (h, m, [])
  | v :: rest =>
      match cp h m v with
      | None => None
      | Some (h1, m1, v') =>
          match copy_list cp h1 m1 rest with
          | None => None
          | Some (h2, m2, rest') => Some (h2, m2, v' :: rest')
          end
      end
  end.

Fixpoint copy (fuel : nat) (h : heap) (m : memo) (v : value)
  : option (heap * memo * value) :=
  match fuel with
  | O => None
  | S f =>
      match v with
      | VRef a =>
          match m !! a with
          | Some a' => Some (h, m, VRef a')
          | None =>
              match h !! a with
              | None => None
              | Some o =>
                  let a' := length h in
                  match copy_list (copy f) (h ++ [blank o]) (<[a:=a']> m)
                                  (obj_values o) with
                  | None => None
                  | Some (h2, m2, vs') =>
                      Some (<[a':=obj_with o vs']> h2, m2, VRef a')
                  end
              end
          end
      | _ => Some (h, m, v)
      end
  end.

(** One top-level call: a fresh memo, and enough fuel to visit every
    object of the heap once.  The interpreter's recursion limit is not
    modelled: on a well-formed heap this copy always finishes, where
    [copy.deepcopy] raises [RecursionError] on nesting that is too deep.
    The theorems below are about copies that have finished. *)
Definition deepcopy (h : heap) (v : value) : option (heap * value) :=
  match copy (S (length h)) h ∅ v with
  | Some (h', _, v') => Some (h', v')
  | None => None
  end.

(** ** Reading a value back as a tree

    What a reader of a configuration observes: the nested structure
    reachable from a value, unfolded to depth [d]. *)
Inductive tree : Type :=
| TAtom (v : value)
| TDict (kts : list (string * tree))
| TList (ts : list tree)
| TCut
| TDangling.

Fixpoint reify (d : nat) (h : heap) (v : value) : tree :=
  match v with
  | VRef a =>
      match d with
      | O => TCut
      | S d' =>
          match h !! a with
          | Some (ODict kvs) => TDict (prod_map id (reify d' h) <$> kvs)
          | Some (OList vs) => TList (reify d' h <$> vs)
          | None => TDangling
          end
      end
  | _ => TAtom v
  end.

(** Well-formed heaps: every stored reference points into the heap. *)
Definition val_below (n : nat) (v : value) : Prop :=
  match v with VRef a => a < n | _ => True end.

Definition wf_heap (h : heap) : Prop :=
  forall a o, h !! a = Some o -> Forall (val_below (length h)) (obj_values o).

Definition vmap (m : memo) (v : value) : value :=
  match v with
  | VRef a => match m !! a with Some a' => VRef a' | None => v end
  | _ => v
  end.

Definition covered (m : memo) (v : value) : Prop :=
  match v with VRef a => is_Some (m !! a) | _ => True end.

Definition val_within (lo hi : nat) (v : value) : Prop :=
  match v with VRef a => lo <= a < hi | _ => True end.

(** ** Exceptions *)

Inductive exn : Type :=
| TypeError (msg : string)
| AttributeError (attr : string)
| KeyError (key : string)
| DeepCopyError.

Abbreviation res A := (exn + A)%type.

Definition rbind {A B : Type} (x : res A) (k : A -> res B) : res B :=
  match x with
  | inl e => inl e
  | inr a => k a
  end.

Notation "'let*' x := e 'in' k" := (rbind e (fun x => k))
  (at level 10, x pattern, e at level 100, k at level 200).

(** ** Nodes, graphs and the workflow object *)

Abbreviation dict := (list (string * value)).

Inductive node_class : Type :=
| GraphIteratorNode
| MergeGeneratedScriptsNode.

(** A node as its constructor call describes it: the input expression, the
    output keys, the node configuration and, where the call passes one,
    the [schema] keyword. *)
Record node : Type := mk_node {
  node_cls : node_class;
  input : string;
  output : list string;
  node_config : dict;
  node_schema : option value
}.

Record BaseGraph : Type := mk_graph {
  nodes : list node;
  edges : list (node * node);
  entry_point : node;
  graph_name : string
}.

Global Instance node_class_eq_dec : EqDecision node_class.
Proof. solve_decision. Defined.

Global Instance node_eq_dec : EqDecision node.
Proof. solve_decision. Defined.

(** What the engine reports besides the final state. *)
Record exec_info : Type := mk_info {
  visited : list node_class;
  failed_urls : list string
}.

(** The attributes of a [ScriptCreatorMultiGraph]; [None] is an attribute
    that has not been set.  [graph] holds the identity of a pipeline in
    the store of graphs. *)
Record instance : Type := mk_instance {
  copy_config : option value;
  copy_schema : option value;
  prompt : option value;
  source : option value;
  config : option value;
  schema : option value;
  llm_model : option value;
  graph : option nat;
  final_state : option dict;
  execution_info : option exec_info
}.

Record world : Type := mk_world {
  w_heap : heap;
  w_graphs : list BaseGraph
}.

Definition set_heap (w : world) (h : heap) : world := mk_world h (w_graphs w).

(** [self.name]: an unset attribute raises. *)
Definition attr {A : Type} (name : string) (field : option A) : res A :=
  match field with
  | Some v => inr v
  | None => inl (AttributeError name)
  end.

(** Modelled from the spec: [safe_deepcopy] of [utils/copy.py] is not part
    of this module.  The spec requires the configuration kept for the
    sub-invocations to be "a structurally independent copy, not a shared
    reference"; that is [deepcopy]. *)
Definition safe_deepcopy (h : heap) (v : value) : option (heap * value) :=
  deepcopy h v.

(** The base-class initialiser ([AbstractGraph.__init__]) is not part of
    this module.  It is a parameter: it receives the object under
    construction, the method [_create_graph] it may dispatch to, and the
    four arguments in the order of the [super().__init__] call. *)
Abbreviation base_init :=
  ((instance -> world -> res (nat * world)) ->
   instance -> value -> value -> value -> value -> world -> res (instance * world)).

(** [_create_graph], lines 55-88.  The new [BaseGraph] goes into the store
    of graphs and its identity is returned; [graph_name] is
    [self.__class__.__name__], the name of this class. *)
Definition _create_graph (self : instance) (w : world) : res (nat * world) :=
  let* cc := attr "copy_config" (copy_config self) in
  let* cs := attr "copy_schema" (copy_schema self) in
  let graph_iterator_node :=
    mk_node GraphIteratorNode "user_prompt & urls" ["scripts"]
      [("graph_instance", VClass "ScriptCreatorGraph"); ("scraper_config", cc)]
      (Some cs) in
  let* llm := attr "llm_model" (llm_model self) in
  let* sch := attr "schema" (schema self) in
  let merge_scripts_node :=
    mk_node MergeGeneratedScriptsNode "user_prompt & scripts" ["merged_script"]
      [("llm_model", llm); ("schema", sch)]
      None in
  let g :=
    mk_graph [graph_iterator_node; merge_scripts_node]
      [(graph_iterator_node, merge_scripts_node)]
      graph_iterator_node
      "ScriptCreatorMultiGraph" in
  inr (length (w_graphs w), mk_world (w_heap w) (w_graphs w ++ [g])).

(** Lines 51-52: the two snapshots, taken on a fresh object. *)
Definition snapshots (config schema : value) (w : world) : res (instance * world) :=
  match safe_deepcopy (w_heap w) config with
  | None => inl DeepCopyError
  | Some (h1, cc) =>
      match deepcopy h1 schema with
      | None => inl DeepCopyError
      | Some (h2, cs) =>
          inr (mk_instance (Some cc) (Some cs) None None None None None None None None,
               set_heap w h2)
      end
  end.

(** [__init__], lines 44-53. *)
Definition __init__ (super_init : base_init)
    (prompt source config schema : value) (w : world) : res (instance * world) :=
  let* (self, w1) := snapshots config schema w in
  super_init _create_graph self prompt config source schema w1.

(** The engine is not part of this module either; [run] is written over
    any [execute]. *)
Abbreviation engine :=
  (BaseGraph -> dict -> heap -> res (dict * exec_info * heap)).

Definition failure_sentinel : string := "Failed to generate the script.".

(** [d.get(k, default)]: the default only when the key is missing. *)
Definition dict_get_default (d : dict) (k : string) (default : value) : value :=
  match dict_get d k with
  | Some v => v
  | None => default
  end.

(** Line 97. *)
Definition run_inputs (self : instance) : res dict :=
  let* p := attr "prompt" (prompt self) in
  let* s := attr "source" (source self) in
  inr [("user_prompt", p); ("urls", s)].

Definition set_results (self : instance) (fs : dict) (info : exec_info) : instance :=
  mk_instance (copy_config self) (copy_schema self) (prompt self) (source self)
    (config self) (schema self) (llm_model self) (graph self)
    (Some fs) (Some info).

(** [run], lines 90-99.  [self.graph] is read, not rebuilt.  An exception
    of the engine leaves through [run], which has no handler, before
    anything is assigned. *)
Definition run (execute : engine) (self : instance) (w : world)
  : res (instance * world * value) :=
  let* inputs := run_inputs self in
  let* gid := attr "graph" (graph self) in
  let* g := attr "graph" (w_graphs w !! gid) in
  let* (fs, info, h') := execute g inputs (w_heap w) in
  inr (set_results self fs info, set_heap w h',
       dict_get_default fs "merged_script" (VStr failure_sentinel)).

(** A call of [run] with positional arguments: the signature is
    [def run(self)], so any further positional argument is a
    [TypeError]. *)
Definition call_run (execute : engine) (self : instance) (args : list value)
    (w : world) : res (instance * world * value) :=
  match args with
  | [] => run execute self w
  | _ => inl (TypeError "run() takes 1 positional argument")
  end.

(** ** Mutation of the heap by other code *)

Inductive mutation : Type :=
| MWrite (a : addr) (o : obj)
| MAlloc (o : obj).

Definition apply_mutation (h : heap) (mu : mutation) : heap :=
  match mu with
  | MWrite a o => <[a:=o]> h
  | MAlloc o => h ++ [o]
  end.

Definition apply_mutations (h : heap) (mus : list mutation) : heap :=
  foldl apply_mutation h mus.

(** The mutation writes to no object of the region [lo, hi). *)
Definition spares (lo hi : nat) (mu : mutation) : Prop :=
  match mu with
  | MWrite a _ => a < lo \/ hi <= a
  | MAlloc _ => True
  end.

(** ** The collaborators, as the spec describes them *)

(** [s.split(sep)] for a one-character separator. *)
Fixpoint split_on (sep : Ascii.ascii) (s : string) : list string :=
  match s with
  | EmptyString => [EmptyString]
  | String c rest =>
      if Ascii.eqb c sep then EmptyString :: split_on sep rest
      else match split_on sep rest with
           | [] => [String c EmptyString]
           | tok :: toks => String c tok :: toks
           end
  end.

(** The blanks around an operand are not part of the key. *)
Fixpoint strip_spaces (s : string) : string :=
  match s with
  | EmptyString => EmptyString
  | String c rest =>
      if Ascii.eqb c " "%char then strip_spaces rest else String c (strip_spaces rest)
  end.

(** Modelled from the spec: the node base class, which reads the input
    expressions, is not part of this module.  The iterator is "given a
    user prompt and a set of source URLs" and the merge stage "the user
    prompt and the full set of per-URL artifacts": an input expression
    such as ["user_prompt & urls"] names the state keys a node reads, its
    operands. *)
Definition input_keys (expr : string) : list string :=
  strip_spaces <$> split_on "&"%char expr.

(** [d[k]]: a missing key raises. *)
Definition state_get (st : dict) (k : string) : res value :=
  match dict_get st k with
  | Some v => inr v
  | None => inl (KeyError k)
  end.

(** Reading a value at the type the stages expect: a string, a list of
    strings held in the heap. *)
Definition as_str (v : value) : res string :=
  match v with
  | VStr s => inr s
  | _ => inl (TypeError "str expected")
  end.

Fixpoint as_strs (vs : list value) : res (list string) :=
  match vs with
  | [] => inr []
  | v :: rest =>
      let* s := as_str v in
      let* ss := as_strs rest in
      inr (s :: ss)
  end.

Definition as_str_list (h : heap) (v : value) : res (list string) :=
  match v with
  | VRef a =>
      match h !! a with
      | Some (OList vs) => as_strs vs
      | _ => inl (TypeError "list expected")
      end
  | _ => inl (TypeError "list expected")
  end.

Section Collaborators.
(** The sub-pipeline and the merging model call are opaque
    capabilities: the first reads the heap (its configuration lives
    there) and yields a script for one URL or fails, the second yields
    the merged text or nothing. *)
Variable sub_pipeline : heap -> string -> string -> value -> option value -> option string.
Variable llm_merge : string -> list string -> value -> value -> option string.

(** Modelled from the spec: the iterator stage ([GraphIteratorNode] is
    not part of this module).  "For each URL, invokes a fresh instance
    of the designated sub-pipeline ... Returns the ordered sequence of
    produced artifacts (length == number of input URLs, unless a
    sub-invocation fails)"; a failed URL is reported, not dropped
    silently.  The result is the scripts in input order and the URLs
    that failed. *)
Fixpoint iterator_stage (h : heap) (prompt : string) (urls : list string)
    (cfg : value) (sch : option value) : list string * list string :=
  match urls with
  | [] => ([], [])
  | u :: rest =>
      let '(ok, ko) := iterator_stage h prompt rest cfg sch in
      match sub_pipeline h prompt u cfg sch with
      | Some script => (script :: ok, ko)
      | None => (ok, u :: ko)
      end
  end.

(** Modelled from the spec: the merge stage ([MergeGeneratedScriptsNode]
    is not part of this module).  One model invocation over the prompt
    and all artifacts; "if the artifact sequence is empty, or the LLM
    call fails to produce a value", there is no merged artifact and no
    exception. *)
Definition merge_stage (prompt : string) (scripts : list string)
    (llm sch : value) : option string :=
  match scripts with
  | [] => None
  | _ => llm_merge prompt scripts llm sch
  end.

(** Modelled from the spec: one node of the engine.  A node reads the
    state keys of its input expression and writes its result under its
    output key; a merge without result writes nothing. *)
Definition run_node (n : node) (st : dict) (h : heap)
  : res (dict * heap * list string) :=
  match node_cls n, input_keys (input n), output n with
  | GraphIteratorNode, [kp; ku], [out] =>
      let* pv := state_get st kp in
      let* p := as_str pv in
      let* uv := state_get st ku in
      let* us := as_str_list h uv in
      let* cfg := state_get (node_config n) "scraper_config" in
      let '(ok, ko) := iterator_stage h p us cfg (node_schema n) in
      let '(h', a) := alloc h (OList (VStr <$> ok)) in
      inr (dict_set st out (VRef a), h', ko)
  | MergeGeneratedScriptsNode, [kp; ks], [out] =>
      let* pv := state_get st kp in
      let* p := as_str pv in
      let* sv := state_get st ks in
      let* scripts := as_str_list h sv in
      let* llm := state_get (node_config n) "llm_model" in
      let* sch := state_get (node_config n) "schema" in
      match merge_stage p scripts llm sch with
      | Some t => inr (dict_set st out (VStr t), h, [])
      | None => inr (st, h, [])
      end
  | _, _, _ => inl (TypeError "malformed node")
  end.

(** Modelled from the spec: "iterator stage ... -> merge stage"; the node
    that follows [cur] is the target of the first edge leaving it. *)
Definition next_node (g : BaseGraph) (cur : node) : option node :=
  match filter (fun e => e.1 = cur) (edges g) with
  | [] => None
  | e :: _ => Some e.2
  end.

(** Modelled from the spec: the loop of the engine, one node per step,
    recording the nodes visited and the URLs that failed. *)
Fixpoint execute_from (fuel : nat) (g : BaseGraph) (cur : node)
    (st : dict) (h : heap) (info : exec_info)
  : res (dict * exec_info * heap) :=
  match fuel with
  | O => inr (st, info, h)
  | S f =>
      let* (st', h', ko) := run_node cur st h in
      let info' := mk_info (visited info ++ [node_cls cur]) (failed_urls info ++ ko) in
      match next_node g cur with
      | None => inr (st', info', h')
      | Some n => execute_from f g n st' h' info'
      end
  end.

(** Modelled from the spec: the graph execution engine ([BaseGraph] is
    not part of this module).  It "must accept a node/edge graph
    description plus an entry point and an initial input mapping, and
    return a final state mapping plus execution metadata": the nodes run
    from the entry point along the edges, each at most once. *)
Definition spec_execute : engine :=
  fun g inputs h =>
    execute_from (length (nodes g)) g (entry_point g) inputs h (mk_info [] []).
End Collaborators.

(** ** A base-class initialiser to run the statements on

    It stores its arguments, defaults the temperature inside the caller's
    own configuration, builds the graph once and clears the results. *)
Definition heap_dict (h : heap) (v : value) : res (addr * dict) :=
  match v with
  | VRef a =>
      match h !! a with
      | Some (ODict kvs) => inr (a, kvs)
      | _ => inl (TypeError "dict expected")
      end
  | _ => inl (TypeError "dict expected")
  end.

Definition base_init_example : base_init :=
  fun create_graph self prompt config source schema w =>
    let h := w_heap w in
    let* (c, ckvs) := heap_dict h config in
    let* llm := state_get ckvs "llm" in
    let* (l, lkvs) := heap_dict h llm in
    let h1 := match dict_get lkvs "temperature" with
              | Some _ => h
              | None => <[l:=ODict (dict_set lkvs "temperature" (VInt 0))]> h
              end in
    let self1 :=
      mk_instance (copy_config self) (copy_schema self)
        (Some prompt) (Some source) (Some config) (Some schema)
        (Some (VClass "ChatModel")) None None None in
    let* (gid, w2) := create_graph self1 (set_heap w h1) in
    inr (mk_instance (copy_config self1) (copy_schema self1)
           (Some prompt) (Some source) (Some config) (Some schema)
           (llm_model self1) (Some gid) None None, w2).

(** ** Invariants of a copy in progress *)

(** The state of a copy in progress over the original heap [h0]: the
    original objects are untouched, the memo sends original objects to
    objects allocated since, and those refer only to each other. *)
Record inv (h0 h : heap) (m : memo) : Prop := {
  inv_old : forall a, a < length h0 -> h !! a = h0 !! a;
  inv_len : length h0 <= length h;
  inv_memo : forall a a', m !! a = Some a' ->
               a < length h0 /\ length h0 <= a' < length h;
  inv_new : forall a o, length h0 <= a -> h !! a = Some o ->
               Forall (val_within (length h0) (length h)) (obj_values o)
}.

(** The copy [a'] of [a] is complete: it is the original object with
    every reference sent through the memo. *)
Definition done_at (h0 h : heap) (m : memo) (a a' : addr) : Prop :=
  exists o, h0 !! a = Some o /\ h !! a' = Some (obj_map (vmap m) o)
            /\ Forall (covered m) (obj_values o).

(** What one call of the copy does to such a state. *)
Record post (h0 h : heap) (m : memo) (h' : heap) (m' : memo) : Prop := {
  post_inv : inv h0 h' m';
  post_sub : m ⊆ m';
  post_len : length h <= length h';
  post_keep : forall a, a < length h -> h' !! a = h !! a;
  post_fresh : forall a a', m' !! a = Some a' -> m !! a = None -> length h <= a';
  post_done : forall a a', m' !! a = Some a' -> m !! a = None -> done_at h0 h' m' a a'
}.

Arguments inv_old {_ _ _}.
Arguments inv_len {_ _ _}.
Arguments inv_memo {_ _ _}.
Arguments inv_new {_ _ _}.
Arguments post_inv {_ _ _ _ _}.
Arguments post_sub {_ _ _ _ _}.
Arguments post_len {_ _ _ _ _}.
Arguments post_keep {_ _ _ _ _}.
Arguments post_fresh {_ _ _ _ _}.
Arguments post_done {_ _ _ _ _}.

Definition copy_ok (h0 : heap)
    (cp : heap -> memo -> value -> option (heap * memo * value)) : Prop :=
  forall h m v h' m' v',
    inv h0 h m -> val_below (length h0) v -> cp h m v = Some (h', m', v') ->
    post h0 h m h' m' /\ covered m' v /\ v' = vmap m' v.

Definition copy_total (h0 : heap) (f : nat)
    (cp : heap -> memo -> value -> option (heap * memo * value)) : Prop :=
  forall h m v, inv h0 h m -> val_below (length h0) v ->
    length h0 < f + size m -> is_Some (cp h m v).

(** A region [lo, hi) of the heap is closed when its objects refer only
    to objects of the region. *)
Definition region_closed (lo hi : nat) (h : heap) : Prop :=
  forall a o, lo <= a < hi -> h !! a = Some o ->
    Forall (val_within lo hi) (obj_values o).

(** The contract of [deepcopy] on a well-formed heap: the original
    objects are untouched, the copy lives in a closed region of fresh
    objects, and it reads back as the original. *)
Record copied (h : heap) (v : value) (h' : heap) (v' : value) : Prop := {
  copied_old : forall a, a < length h -> h' !! a = h !! a;
  copied_len : length h <= length h';
  copied_fresh : val_within (length h) (length h') v';
  copied_closed : region_closed (length h) (length h') h';
  copied_same : forall d, reify d h' v' = reify d h v
}.

Arguments copied_old {_ _ _ _}.
Arguments copied_len {_ _ _ _}.
Arguments copied_fresh {_ _ _ _}.
Arguments copied_closed {_ _ _ _}.
Arguments copied_same {_ _ _ _}.

(** ** Notions the statements use *)

(** The base-class initialiser, on this very call, leaves the two
    snapshots alone: it keeps the attributes [copy_config] and
    [copy_schema], and does not write to the objects allocated for them.
    What it does to the arguments it is given is not restricted. *)
Definition super_keeps_snapshots (super_init : base_init)
    (prompt source config schema : value) (w : world) : Prop :=
  forall self0 w0 self w',
    snapshots config schema w = inr (self0, w0) ->
    super_init _create_graph self0 prompt config source schema w0 = inr (self, w') ->
    copy_config self = copy_config self0 /\
    copy_schema self = copy_schema self0 /\
    forall a, length (w_heap w) <= a < length (w_heap w0) ->
      w_heap w' !! a = w_heap w0 !! a.

(** The configuration the iterator node hands to its sub-invocations. *)
Definition scraper_config (n : node) : option value :=
  dict_get (node_config n) "scraper_config".

(** [g] is a pipeline as [_create_graph] builds them. *)
Definition built_by_create_graph (g : BaseGraph) : Prop :=
  exists self w gid w',
    _create_graph self w = inr (gid, w') /\ w_graphs w' !! gid = Some g.

(** A workflow object ready to run: a string prompt, a list of URL
    strings, and a pipeline of its own in the store. *)
Record ready (self : instance) (w : world) (p : string) (us : list string)
    (g : BaseGraph) : Prop := {
  ready_prompt : prompt self = Some (VStr p);
  ready_source : exists a, source self = Some (VRef a) /\
                   w_heap w !! a = Some (OList (VStr <$> us));
  ready_graph : exists gid, graph self = Some gid /\ w_graphs w !! gid = Some g;
  ready_built : built_by_create_graph g
}.

(** ** Sample data *)

Definition sample_heap : heap :=
  [ ODict [("llm", VRef 1); ("verbose", VBool true)];
    ODict [("model", VStr "openai/gpt-3.5-turbo")];
    OList [VStr "https://a.example/pricing"; VStr "https://b.example/pricing"];
    ODict [];
    OList [] ].

Definition sample_world : world := mk_world sample_heap [].

(** The workflow built on the sample data, with the dict schema of the
    class docstring, and the world after its construction. *)
Definition sample_self : instance :=
  mk_instance (Some (VRef 5)) (Some (VRef 7))
    (Some (VStr "Summarize pricing")) (Some (VRef 2)) (Some (VRef 0)) (Some (VRef 3))
    (Some (VClass "ChatModel")) (Some 0) None None.

Definition sample_iterator : node :=
  mk_node GraphIteratorNode "user_prompt & urls" ["scripts"]
    [("graph_instance", VClass "ScriptCreatorGraph"); ("scraper_config", VRef 5)]
    (Some (VRef 7)).

Definition sample_merge : node :=
  mk_node MergeGeneratedScriptsNode "user_prompt & scripts" ["merged_script"]
    [("llm_model", VClass "ChatModel"); ("schema", VRef 3)]
    None.

Definition sample_graph : BaseGraph :=
  mk_graph [sample_iterator; sample_merge] [(sample_iterator, sample_merge)]
    sample_iterator "ScriptCreatorMultiGraph".

Definition sample_built : world :=
  mk_world
    [ ODict [("llm", VRef 1); ("verbose", VBool true)];
      ODict [("model", VStr "openai/gpt-3.5-turbo"); ("temperature", VInt 0)];
      OList [VStr "https://a.example/pricing"; VStr "https://b.example/pricing"];
      ODict [];
      OList [];
      ODict [("llm", VRef 6); ("verbose", VBool true)];
      ODict [("model", VStr "openai/gpt-3.5-turbo")];
      ODict [] ]
    [sample_graph].

(** The same workflow with an empty URL list (the list at address 4). *)
Definition sample_self_empty : instance :=
  mk_instance (Some (VRef 5)) (Some (VRef 7))
    (Some (VStr "Summarize pricing")) (Some (VRef 4)) (Some (VRef 0)) (Some (VRef 3))
    (Some (VClass "ChatModel")) (Some 0) None None.

Definition sample_urls : list string :=
  ["https://a.example/pricing"; "https://b.example/pricing"].

(** What a caller may do to its configuration after construction:
    rewrite both of its dicts, allocate a new dict (address 8), hang it
    into the configuration and fill it. *)
Definition sample_mutations : list mutation :=
  [ MWrite 1 (ODict [("model", VStr "other/model")]);
    MAlloc (ODict []);
    MWrite 0 (ODict [("llm", VRef 1); ("verbose", VBool false);
                     ("loader_kwargs", VRef 8)]);
    MWrite 8 (ODict [("proxy", VStr "socks5://p")]) ].

(** Stand-ins for the collaborators: a sub-pipeline that fails on one
    host, and a model that joins the scripts. *)
Definition sample_sub_pipeline (h : heap) (p u : string) (cfg : value)
    (sch : option value) : option string :=
  if String.eqb u "https://down.example" then None else Some ("# script for " ++ u)%string.

Definition sample_llm_merge (p : string) (scripts : list string)
    (llm sch : value) : option string :=
  Some (String.concat "; " scripts).

(** An engine that fails, as a model call that raises would make it. *)
Definition failing_engine : engine :=
  fun _ _ _ => inl (KeyError "llm").

(** ** Notions and data for the further properties *)

(** A graph an engine can walk: the entry point and the ends of every
    edge are nodes of the graph, no node is listed twice, no edge is a
    loop, and no edge leads back into the entry point. *)
Definition graph_wf (g : BaseGraph) : Prop :=
  entry_point g ∈ nodes g /\
  NoDup (nodes g) /\
  (forall e, e ∈ edges g -> e.1 ∈ nodes g /\ e.2 ∈ nodes g /\ e.1 <> e.2) /\
  (forall e, e ∈ edges g -> e.2 <> entry_point g).

(** A value that is not a reference: [None], a number, a string, a
    class. *)
Definition is_immediate (v : value) : Prop :=
  match v with VRef _ => False | _ => True end.

(** The store of graphs holds the pipeline the object refers to. *)
Definition graph_stored (self : instance) (w : world) : Prop :=
  forall gid, graph self = Some gid -> is_Some (w_graphs w !! gid).

(** An engine whose final state holds [None] under ["merged_script"]. *)
Definition null_engine : engine :=
  fun _ inputs h => inr (dict_set inputs "merged_script" VNone, mk_info [] [], h).

(** An engine that writes into the dict behind the iterator's
    ["scraper_config"], as a sub-graph constructor that defaults the
    temperature would, and then returns the inputs as the final state. *)
Definition rewriting_engine : engine :=
  fun g inputs h =>
    match scraper_config (entry_point g) with
    | Some (VRef c) =>
        match h !! c with
        | Some (ODict kvs) =>
            inr (inputs, mk_info [GraphIteratorNode] [],
                 <[c:=ODict (dict_set kvs "temperature" (VInt 0))]> h)
        | _ => inr (inputs, mk_info [] [], h)
        end
    | _ => inr (inputs, mk_info [] [], h)
    end.

(** A configuration and a schema that share an object: the dict at
    address 2 is the schema and also the ["output"] entry of the
    configuration. *)
Definition shared_heap : heap :=
  [ ODict [("llm", VRef 1); ("output", VRef 2)];
    ODict [("model", VStr "openai/gpt-3.5-turbo"); ("temperature", VInt 0)];
    ODict [("title", VStr "str"); ("tags", VRef 3)];
    OList [VStr "price"];
    OList [VStr "https://a.example/pricing"] ].

Definition shared_world : world := mk_world shared_heap [].

(** * Properties of [deepcopy] *)

Lemma vmap_weaken (m m' : memo) (v : value) :
  m ⊆ m' -> covered m v -> vmap m' v = vmap m v.
Proof.
  intros Hsub Hc. destruct v as [| | | | |a]; simpl in *; try done.
  destruct Hc as [a' Ha]. rewrite Ha.
  by rewrite (lookup_weaken _ _ _ _ Ha Hsub).
Qed.

Lemma covered_weaken (m m' : memo) (v : value) :
  m ⊆ m' -> covered m v -> covered m' v.
Proof.
  intros Hsub Hc. destruct v as [| | | | |a]; simpl in *; try done.
  destruct Hc as [a' Ha]. exists a'. by eapply lookup_weaken.
Qed.

Lemma obj_map_ext (f g : value -> value) (o : obj) :
  Forall (fun v => f v = g v) (obj_values o) -> obj_map f o = obj_map g o.
Proof.
  destruct o as [kvs|vs]; simpl; intros HF; f_equal.
  - induction kvs as [|[k v] kvs IH]; simpl in *; [done|].
    inversion HF; subst. f_equal; [by f_equal | by apply IH].
  - induction vs as [|v vs IH]; simpl in *; [done|].
    inversion HF; subst. f_equal; [done | by apply IH].
Qed.

Lemma obj_with_map (f : value -> value) (o : obj) :
  obj_with o (f <$> obj_values o) = obj_map f o.
Proof.
  destruct o as [kvs|vs]; simpl; [|done]. f_equal.
  induction kvs as [|[k v] kvs IH]; simpl; [done|]. by f_equal.
Qed.

Lemma obj_values_map (f : value -> value) (o : obj) :
  obj_values (obj_map f o) = f <$> obj_values o.
Proof.
  destruct o as [kvs|vs]; simpl; [|done].
  induction kvs as [|[k v] kvs IH]; simpl; [done|]. by f_equal.
Qed.

Lemma obj_values_blank (o : obj) : obj_values (blank o) = [].
Proof. by destruct o. Qed.

Section CopySpec.
Variable h0 : heap.
Hypothesis Hwf : wf_heap h0.

Lemma post_refl h m : inv h0 h m -> post h0 h m h m.
Proof.
  intros Hi. split; [done | done | done | done | |];
    intros a a' H1 H2; rewrite H2 in H1; discriminate.
Qed.

Lemma done_at_stable h1 m1 h2 m2 a a' :
  a' < length h1 -> post h0 h1 m1 h2 m2 -> done_at h0 h1 m1 a a' -> done_at h0 h2 m2 a a'.
Proof.
  intros Hlt Hp (o & Ho & Hc & Hcov). exists o. split; [done|]. split.
  - rewrite (post_keep Hp) by done. rewrite Hc. f_equal.
    apply obj_map_ext. eapply Forall_impl; [exact Hcov|].
    intros v Hv. simpl. symmetry. apply vmap_weaken; [apply Hp | done].
  - eapply Forall_impl; [exact Hcov|]. intros v Hv.
    eapply covered_weaken; [apply Hp | done].
Qed.

Lemma post_trans h m h1 m1 h2 m2 :
  post h0 h m h1 m1 -> post h0 h1 m1 h2 m2 -> post h0 h m h2 m2.
Proof.
  intros P1 P2. split.
  - apply P2.
  - etrans; [apply P1 | apply P2].
  - etrans; [apply P1 | apply P2].
  - intros a Ha. rewrite (post_keep P2); [by apply P1|].
    pose proof (post_len P1). lia.
  - intros a a' H2 Hn. destruct (m1 !! a) as [b|] eqn:E1.
    + rewrite (lookup_weaken _ _ _ _ E1 (post_sub P2)) in H2.
      inversion H2; subst. by eapply P1.
    + pose proof (post_fresh P2 _ _ H2 E1).
      pose proof (post_len P1). lia.
  - intros a a' H2 Hn. destruct (m1 !! a) as [b|] eqn:E1.
    + rewrite (lookup_weaken _ _ _ _ E1 (post_sub P2)) in H2.
      inversion H2; subst.
      eapply done_at_stable; [|exact P2|by eapply P1].
      by apply (inv_memo (post_inv P1) _ _ E1).
    + by eapply P2.
Qed.

(** Registering a still empty copy keeps the state consistent. *)
Lemma inv_alloc h m a o :
  inv h0 h m -> a < length h0 -> inv h0 (h ++ [blank o]) (<[a:=length h]> m).
Proof.
  intros Hi Ha. pose proof (inv_len Hi). split.
  - intros b Hb. rewrite lookup_app_l by lia. by apply Hi.
  - rewrite length_app. simpl. lia.
  - intros b b' Hb. rewrite length_app. simpl.
    destruct (decide (a = b)) as [->|Hne].
    + rewrite lookup_insert_eq in Hb. inversion Hb; subst. lia.
    + rewrite lookup_insert_ne in Hb by done.
      pose proof (inv_memo Hi _ _ Hb). lia.
  - intros b ob Hb Hl. rewrite length_app. simpl.
    destruct (decide (b < length h)) as [Hlt|Hge].
    + rewrite lookup_app_l in Hl by done.
      eapply Forall_impl; [by eapply (inv_new Hi)|].
      intros [| | | | |c]; simpl; try done. lia.
    + apply lookup_lt_Some in Hl as Hl'. rewrite length_app in Hl'. simpl in Hl'.
      assert (b = length h) as -> by lia.
      rewrite lookup_app_r in Hl by lia. rewrite Nat.sub_diag in Hl.
      simpl in Hl. inversion Hl; subst. by rewrite obj_values_blank.
Qed.

Lemma copy_list_post cp :
  copy_ok h0 cp ->
  forall vs h m h' m' vs',
    inv h0 h m -> Forall (val_below (length h0)) vs ->
    copy_list cp h m vs = Some (h', m', vs') ->
    post h0 h m h' m' /\ Forall (covered m') vs /\ vs' = vmap m' <$> vs.
Proof.
  intros Hcp vs. induction vs as [|v vs IH]; intros h m h' m' vs' Hi HF Hc; simpl in Hc.
  - inversion Hc; subst. split; [by apply post_refl | done].
  - inversion HF as [|? ? Hv HF']; subst.
    destruct (cp h m v) as [[[h1 m1] v1]|] eqn:E1; [|done].
    destruct (copy_list cp h1 m1 vs) as [[[h2 m2] vs2]|] eqn:E2; [|done].
    inversion Hc; subst.
    destruct (Hcp _ _ _ _ _ _ Hi Hv E1) as (P1 & C1 & ->).
    destruct (IH _ _ _ _ _ (post_inv P1) HF' E2) as (P2 & C2 & ->).
    split; [by eapply post_trans|]. split.
    + constructor; [|done]. eapply covered_weaken; [apply P2 | done].
    + simpl. f_equal. symmetry. apply vmap_weaken; [apply P2 | done].
Qed.

Lemma copy_post f : copy_ok h0 (copy f).
Proof.
  induction f as [|f IH]; intros h m v h' m' v' Hi Hv Hc; simpl in Hc; [done|].
  destruct v as [| | | | |a];
    try (inversion Hc; subst; split; [by apply post_refl | done]).
  destruct (m !! a) as [b|] eqn:Em.
  { inversion Hc; subst. split; [by apply post_refl|]. simpl. rewrite Em. eauto. }
  destruct (h !! a) as [o|] eqn:Eh; [|done].
  destruct (copy_list (copy f) (h ++ [blank o]) (<[a:=length h]> m) (obj_values o))
    as [[[h2 m2] vs']|] eqn:El; [|done].
  injection Hc as <- <- <-. simpl in Hv.
  assert (Ho : h0 !! a = Some o) by (by rewrite <- (inv_old Hi)).
  pose proof (inv_alloc _ _ a o Hi Hv) as Hi1.
  assert (HF : Forall (val_below (length h0)) (obj_values o)) by (by eapply Hwf).
  destruct (copy_list_post _ IH _ _ _ _ _ _ Hi1 HF El) as (P & Cov & ->).
  pose proof (post_len P) as Hlen. rewrite length_app in Hlen. simpl in Hlen.
  pose proof (inv_len Hi) as Hl0.
  assert (Hma : m2 !! a = Some (length h)).
  { eapply lookup_weaken; [|apply P]. apply lookup_insert_eq. }
  rewrite obj_with_map.
  split; [|split; [simpl; eauto | simpl; by rewrite Hma]].
  split.
  - (* the state after filling the copy *)
    split.
    + intros b Hb. rewrite list_lookup_insert_ne by lia.
      by apply (inv_old (post_inv P)).
    + rewrite length_insert. apply (inv_len (post_inv P)).
    + intros b b' Hb. rewrite length_insert.
      by apply (inv_memo (post_inv P)).
    + intros b ob Hb Hl. rewrite length_insert.
      destruct (decide (b = length h)) as [->|Hne].
      * rewrite list_lookup_insert_eq in Hl by lia. inversion Hl; subst.
        rewrite obj_values_map. apply Forall_fmap.
        eapply Forall_impl; [exact Cov|].
        intros [| | | | |c]; simpl; try done. intros [c' Hc']. rewrite Hc'. simpl.
        apply (inv_memo (post_inv P) _ _ Hc').
      * rewrite list_lookup_insert_ne in Hl by done.
        by eapply (inv_new (post_inv P)).
  - etrans; [|apply P]. by apply insert_subseteq.
  - rewrite length_insert. lia.
  - intros b Hb. rewrite list_lookup_insert_ne by lia.
    rewrite (post_keep P) by (rewrite length_app; simpl; lia).
    by rewrite lookup_app_l.
  - intros b b' Hb Hn. destruct (decide (a = b)) as [->|Hne].
    + rewrite Hma in Hb. inversion Hb; subst. lia.
    + assert (length (h ++ [blank o]) <= b').
      { eapply (post_fresh P); [done|]. by rewrite lookup_insert_ne. }
      rewrite length_app in *. simpl in *. lia.
  - intros b b' Hb Hn. destruct (decide (a = b)) as [->|Hne].
    + rewrite Hma in Hb. inversion Hb; subst. exists o. split; [done|].
      split; [|done]. by rewrite list_lookup_insert_eq by lia.
    + assert (Hn1 : <[a:=length h]> m !! b = None) by (by rewrite lookup_insert_ne).
      destruct (post_done P _ _ Hb Hn1) as (ob & H1 & H2 & H3).
      exists ob. split; [done|]. split; [|done].
      pose proof (post_fresh P _ _ Hb Hn1) as Hfr.
      rewrite length_app in Hfr. simpl in Hfr.
      by rewrite list_lookup_insert_ne by lia.
Qed.
End CopySpec.

Section CopyTotal.
Variable h0 : heap.
Hypothesis Hwf : wf_heap h0.

Lemma inv_size h (m : memo) : inv h0 h m -> size m <= length h0.
Proof.
  intros Hi. rewrite <- size_dom.
  rewrite <- (size_set_seq (C := gset nat) 0 (length h0)).
  apply subseteq_size. intros a Ha. apply elem_of_dom in Ha as [a' Ha].
  apply elem_of_set_seq. pose proof (inv_memo Hi _ _ Ha). lia.
Qed.

Lemma copy_list_total f cp :
  copy_ok h0 cp -> copy_total h0 f cp ->
  forall vs h m, inv h0 h m -> Forall (val_below (length h0)) vs ->
    length h0 < f + size m -> is_Some (copy_list cp h m vs).
Proof.
  intros Hok Htot vs. induction vs as [|v vs IH]; intros h m Hi HF Hsz; simpl; [eauto|].
  inversion HF as [|? ? Hv HF']; subst.
  destruct (Htot h m v Hi Hv Hsz) as [[[h1 m1] v1] E1]. rewrite E1.
  destruct (Hok _ _ _ _ _ _ Hi Hv E1) as (P1 & _ & _).
  pose proof (map_subseteq_size _ _ (post_sub P1)) as Hs.
  destruct (IH h1 m1 (post_inv P1) HF') as [[[h2 m2] vs2] E2]; [lia|].
  rewrite E2. eauto.
Qed.

Lemma copy_is_total f : copy_total h0 f (copy f).
Proof.
  induction f as [|f IH]; intros h m v Hi Hv Hsz.
  { pose proof (inv_size _ _ Hi). lia. }
  simpl. destruct v as [| | | | |a]; eauto.
  destruct (m !! a) as [b|] eqn:Em; [eauto|].
  simpl in Hv. pose proof (inv_len Hi) as Hl0.
  destruct (lookup_lt_is_Some_2 h0 a Hv) as [o Ho].
  assert (Eh : h !! a = Some o) by (by rewrite (inv_old Hi)).
  rewrite Eh.
  pose proof (inv_alloc h0 _ _ a o Hi Hv) as Hi1.
  assert (HF : Forall (val_below (length h0)) (obj_values o)) by (by eapply Hwf).
  destruct (copy_list_total f (copy f) (copy_post h0 Hwf f) IH _ _ _ Hi1 HF)
    as [[[h2 m2] vs'] El].
  { rewrite map_size_insert_None by done. lia. }
  rewrite El. eauto.
Qed.
End CopyTotal.

(** ** The copy reads back as the original, and shares nothing with it *)

Lemma Forall_values_dict (P : value -> Prop) (kvs : list (string * value)) :
  Forall P (kvs.*2) <-> Forall (fun kv => P kv.2) kvs.
Proof. by rewrite Forall_fmap. Qed.

Lemma reify_bisim (h0 h' : heap) (m : memo) :
  (forall a a', m !! a = Some a' -> done_at h0 h' m a a') ->
  forall d v, covered m v -> reify d h' (vmap m v) = reify d h0 v.
Proof.
  intros Hdone d. induction d as [|d IH]; intros v Hc.
  - destruct v as [| | | | |a]; try done. simpl in *.
    destruct Hc as [a' Ha]. by rewrite Ha.
  - destruct v as [| | | | |a]; try done. simpl in Hc.
    destruct Hc as [a' Ha]. simpl vmap. rewrite Ha.
    destruct (Hdone _ _ Ha) as (o & Ho & Ho' & Hcov).
    simpl. rewrite Ho, Ho'. destruct o as [kvs|vs]; simpl in *; f_equal.
    + rewrite <- list_fmap_compose. apply Forall_fmap_ext_1.
      apply Forall_values_dict in Hcov.
      eapply Forall_impl; [exact Hcov|]. intros [k v] Hv. simpl in *.
      f_equal. by apply IH.
    + rewrite <- list_fmap_compose. apply Forall_fmap_ext_1.
      eapply Forall_impl; [exact Hcov|]. intros v Hv. simpl. by apply IH.
Qed.

(** What is read from a closed region depends on that region only. *)
Lemma reify_region (lo hi : nat) (h1 h2 : heap) :
  region_closed lo hi h1 ->
  (forall a, lo <= a < hi -> h2 !! a = h1 !! a) ->
  forall d v, val_within lo hi v -> reify d h2 v = reify d h1 v.
Proof.
  intros Hcl Heq d. induction d as [|d IH]; intros v Hv.
  - by destruct v.
  - destruct v as [| | | | |a]; try done. simpl in Hv. simpl.
    rewrite (Heq a Hv). destruct (h1 !! a) as [o|] eqn:Ho; [|done].
    pose proof (Hcl a o Hv Ho) as HF.
    destruct o as [kvs|vs]; simpl in *; f_equal.
    + apply Forall_fmap_ext_1. apply Forall_values_dict in HF.
      eapply Forall_impl; [exact HF|]. intros [k v] Hkv. simpl in *.
      f_equal. by apply IH.
    + apply Forall_fmap_ext_1.
      eapply Forall_impl; [exact HF|]. intros v Hkv. by apply IH.
Qed.

Lemma deepcopy_copied (h : heap) (v : value) :
  wf_heap h -> val_below (length h) v ->
  exists h' v', deepcopy h v = Some (h', v') /\ copied h v h' v'.
Proof.
  intros Hwf Hv. unfold deepcopy.
  assert (Hi : inv h h ∅).
  { split; [done | done | |].
    - intros a a' Ha. by rewrite lookup_empty in Ha.
    - intros a o Ha Ho. apply lookup_lt_Some in Ho. lia. }
  destruct (copy_is_total h Hwf (S (length h)) h ∅ v Hi Hv) as [[[h' m'] v'] E].
  { rewrite map_size_empty. lia. }
  rewrite E. exists h', v'. split; [done|].
  destruct (copy_post h Hwf _ _ _ _ _ _ _ Hi Hv E) as (P & Hc & ->).
  pose proof (post_inv P) as Hi'.
  split.
  - apply P.
  - apply P.
  - destruct v as [| | | | |a]; try done. simpl in *.
    destruct Hc as [a' Ha]. rewrite Ha. simpl.
    apply (inv_memo Hi' _ _ Ha).
  - intros a o [Ha _] Ho. by eapply (inv_new Hi').
  - intros d. apply reify_bisim; [|done].
    intros a a' Ha. eapply (post_done P); [done|]. apply lookup_empty.
Qed.

Lemma deepcopy_wf (h : heap) (v : value) (h' : heap) (v' : value) :
  wf_heap h -> copied h v h' v' -> wf_heap h'.
Proof.
  intros Hwf Hc a o Ho. destruct (decide (a < length h)) as [Hlt|Hge].
  - rewrite (copied_old Hc) in Ho by done.
    eapply Forall_impl; [by eapply Hwf|].
    pose proof (copied_len Hc).
    intros [| | | | |c]; simpl; try done. lia.
  - apply lookup_lt_Some in Ho as Hl.
    eapply Forall_impl; [eapply (copied_closed Hc); [|exact Ho]; lia|].
    intros [| | | | |c]; simpl; try done. lia.
Qed.

(** * The constructor and its snapshots *)

Lemma val_within_weaken (lo hi lo' hi' : nat) (v : value) :
  lo' <= lo -> hi <= hi' -> val_within lo hi v -> val_within lo' hi' v.
Proof. destruct v; simpl; try done. lia. Qed.

Lemma val_below_within (n : nat) (v : value) : val_below n v -> val_within 0 n v.
Proof. destruct v; simpl; try done. lia. Qed.

Lemma wf_heap_closed (h : heap) : wf_heap h -> region_closed 0 (length h) h.
Proof.
  intros Hwf a o _ Ho. eapply Forall_impl; [by eapply Hwf|].
  intros v. apply val_below_within.
Qed.

Lemma region_closed_eq (lo hi : nat) (h1 h2 : heap) :
  region_closed lo hi h1 ->
  (forall a, lo <= a < hi -> h2 !! a = h1 !! a) ->
  region_closed lo hi h2.
Proof. intros Hcl Heq a o Ha Ho. rewrite Heq in Ho by done. by eapply Hcl. Qed.

Lemma region_closed_join (lo mid hi : nat) (h : heap) :
  lo <= mid <= hi ->
  region_closed lo mid h -> region_closed mid hi h -> region_closed lo hi h.
Proof.
  intros Hm H1 H2 a o Ha Ho. destruct (decide (a < mid)) as [Hlt|Hge].
  - eapply Forall_impl; [eapply H1; [|exact Ho]; lia|].
    intros v. apply val_within_weaken; lia.
  - eapply Forall_impl; [eapply H2; [|exact Ho]; lia|].
    intros v. apply val_within_weaken; lia.
Qed.

(** Writes outside a region, and allocations, leave the existing objects
    of the region as they were. *)
Lemma apply_mutations_frame (lo hi : nat) (mus : list mutation) :
  Forall (spares lo hi) mus ->
  forall h a, lo <= a < hi -> a < length h -> apply_mutations h mus !! a = h !! a.
Proof.
  induction 1 as [|mu mus Hmu _ IH]; intros h a Hn Ha; [done|].
  unfold apply_mutations in *. simpl. destruct mu as [a' o|o]; simpl in *.
  - rewrite IH by (rewrite ?length_insert; lia).
    apply list_lookup_insert_ne. lia.
  - rewrite IH by (rewrite ?length_app; simpl; lia).
    by apply lookup_app_l.
Qed.

(** In this model, which has no recursion limit, the two copies of a
    well-formed heap always finish. *)
Lemma snapshots_total (config schema : value) (w : world) :
  wf_heap (w_heap w) ->
  val_below (length (w_heap w)) config ->
  val_below (length (w_heap w)) schema ->
  exists self0 w0, snapshots config schema w = inr (self0, w0).
Proof.
  intros Hwf Hc Hs.
  destruct (deepcopy_copied _ config Hwf Hc) as (h1 & cc & E1 & C1).
  assert (Hs1 : val_below (length h1) schema).
  { pose proof (copied_len C1). destruct schema; simpl in *; try done. lia. }
  destruct (deepcopy_copied h1 schema (deepcopy_wf _ _ _ _ Hwf C1) Hs1)
    as (h2 & cs & E2 & C2).
  unfold snapshots, safe_deepcopy. rewrite E1, E2. eauto.
Qed.

(** What [_create_graph] returns, when it returns. *)
Lemma create_graph_inv (self : instance) (w : world) (gid : nat) (w' : world) :
  _create_graph self w = inr (gid, w') ->
  exists cc cs llm sch,
    copy_config self = Some cc /\ copy_schema self = Some cs /\
    llm_model self = Some llm /\ schema self = Some sch /\
    gid = length (w_graphs w) /\ w_heap w' = w_heap w /\
    w_graphs w' = w_graphs w ++
      [mk_graph
         [mk_node GraphIteratorNode "user_prompt & urls" ["scripts"]
            [("graph_instance", VClass "ScriptCreatorGraph"); ("scraper_config", cc)]
            (Some cs);
          mk_node MergeGeneratedScriptsNode "user_prompt & scripts" ["merged_script"]
            [("llm_model", llm); ("schema", sch)] None]
         [(mk_node GraphIteratorNode "user_prompt & urls" ["scripts"]
             [("graph_instance", VClass "ScriptCreatorGraph"); ("scraper_config", cc)]
             (Some cs),
           mk_node MergeGeneratedScriptsNode "user_prompt & scripts" ["merged_script"]
             [("llm_model", llm); ("schema", sch)] None)]
         (mk_node GraphIteratorNode "user_prompt & urls" ["scripts"]
            [("graph_instance", VClass "ScriptCreatorGraph"); ("scraper_config", cc)]
            (Some cs))
         "ScriptCreatorMultiGraph"].
Proof.
  unfold _create_graph. intros H.
  destruct (copy_config self) as [cc|]; [|done].
  destruct (copy_schema self) as [cs|]; [|done].
  destruct (llm_model self) as [llm|]; [|done].
  destruct (schema self) as [sch|]; [|done].
  simpl in H. injection H as <- <-.
  by exists cc, cs, llm, sch.
Qed.

Lemma create_graph_lookup (self : instance) (w : world) (gid : nat) (w' : world)
    (g : BaseGraph) :
  _create_graph self w = inr (gid, w') -> w_graphs w' !! gid = Some g ->
  exists cc cs llm sch,
    copy_config self = Some cc /\ copy_schema self = Some cs /\
    llm_model self = Some llm /\ schema self = Some sch /\
    g = mk_graph
         [mk_node GraphIteratorNode "user_prompt & urls" ["scripts"]
            [("graph_instance", VClass "ScriptCreatorGraph"); ("scraper_config", cc)]
            (Some cs);
          mk_node MergeGeneratedScriptsNode "user_prompt & scripts" ["merged_script"]
            [("llm_model", llm); ("schema", sch)] None]
         [(mk_node GraphIteratorNode "user_prompt & urls" ["scripts"]
             [("graph_instance", VClass "ScriptCreatorGraph"); ("scraper_config", cc)]
             (Some cs),
           mk_node MergeGeneratedScriptsNode "user_prompt & scripts" ["merged_script"]
             [("llm_model", llm); ("schema", sch)] None)]
         (mk_node GraphIteratorNode "user_prompt & urls" ["scripts"]
            [("graph_instance", VClass "ScriptCreatorGraph"); ("scraper_config", cc)]
            (Some cs))
         "ScriptCreatorMultiGraph".
Proof.
  intros H Hg.
  destruct (create_graph_inv _ _ _ _ H) as (cc & cs & llm & sch & H1 & H2 & H3 & H4 & -> & _ & Hw).
  exists cc, cs, llm, sch. repeat (split; [done|]).
  rewrite Hw in Hg. rewrite lookup_app_r in Hg by lia.
  rewrite Nat.sub_diag in Hg. simpl in Hg. by injection Hg as <-.
Qed.

(** The state right after construction: both snapshots sit in a closed
    region of objects allocated by the constructor, and read back as the
    arguments did on entry. *)
Lemma init_snapshot (super_init : base_init) (prompt source config schema : value)
    (w : world) (self : instance) (w' : world) :
  wf_heap (w_heap w) ->
  val_below (length (w_heap w)) config ->
  val_below (length (w_heap w)) schema ->
  super_keeps_snapshots super_init prompt source config schema w ->
  __init__ super_init prompt source config schema w = inr (self, w') ->
  exists cc cs self0 w0,
    snapshots config schema w = inr (self0, w0) /\
    copy_config self = Some cc /\ copy_schema self = Some cs /\
    (forall a, length (w_heap w) <= a < length (w_heap w0) -> a < length (w_heap w')) /\
    val_within (length (w_heap w)) (length (w_heap w0)) cc /\
    val_within (length (w_heap w)) (length (w_heap w0)) cs /\
    region_closed (length (w_heap w)) (length (w_heap w0)) (w_heap w') /\
    (forall d, reify d (w_heap w') cc = reify d (w_heap w) config) /\
    (forall d, reify d (w_heap w') cs = reify d (w_heap w) schema).
Proof.
  intros Hwf Hc Hs Hkeep Hinit.
  destruct w as [h gs]. simpl in *.
  destruct (deepcopy_copied h config Hwf Hc) as (h1 & cc & E1 & C1).
  pose proof (deepcopy_wf _ _ _ _ Hwf C1) as Hwf1.
  pose proof (copied_len C1) as Hl1.
  assert (Hs1 : val_below (length h1) schema).
  { destruct schema; simpl in *; try done. lia. }
  destruct (deepcopy_copied h1 schema Hwf1 Hs1) as (h2 & cs & E2 & C2).
  pose proof (copied_len C2) as Hl2.
  assert (Esnap : snapshots config schema (mk_world h gs)
                  = inr (mk_instance (Some cc) (Some cs) None None None None None None None None,
                         mk_world h2 gs)).
  { unfold snapshots, safe_deepcopy. simpl. by rewrite E1, E2. }
  unfold __init__ in Hinit. rewrite Esnap in Hinit. simpl in Hinit.
  destruct (Hkeep _ _ _ _ Esnap Hinit) as (Kc & Ks & Kh). simpl in Kc, Ks, Kh.
  assert (Hcl2 : region_closed (length h) (length h2) h2).
  { apply (region_closed_join _ (length h1)); [lia| |apply C2].
    eapply region_closed_eq; [apply C1|]. intros a Ha. apply C2. lia. }
  assert (Hsome : forall a, length h <= a < length h2 -> a < length (w_heap w')).
  { intros a Ha. apply lookup_lt_is_Some. rewrite Kh by done.
    apply lookup_lt_is_Some. lia. }
  do 4 eexists. split; [exact Esnap|]. simpl. repeat split.
  - done.
  - done.
  - exact Hsome.
  - eapply val_within_weaken; [| |apply C1]; lia.
  - eapply val_within_weaken; [| |apply C2]; lia.
  - eapply region_closed_eq; [exact Hcl2 | exact Kh].
  - intros d.
    rewrite (reify_region (length h) (length h2) h2 (w_heap w') Hcl2 Kh)
      by (eapply val_within_weaken; [| |apply C1]; lia).
    rewrite (reify_region (length h) (length h1) h1 h2 (copied_closed C1))
      by (try apply C1; intros a Ha; apply C2; lia).
    apply C1.
  - intros d.
    rewrite (reify_region (length h) (length h2) h2 (w_heap w') Hcl2 Kh)
      by (eapply val_within_weaken; [| |apply C2]; lia).
    rewrite (copied_same C2).
    apply (reify_region 0 (length h) h h1 (wf_heap_closed _ Hwf)).
    + intros a Ha. apply C1. lia.
    + by apply val_below_within.
Qed.

Ltac solve_wf_heap :=
  let a := fresh "a" in let o := fresh "o" in let Ho := fresh "Ho" in
  intros a o Ho;
  repeat (destruct a as [|a];
          [injection Ho as <-; simpl; repeat constructor; simpl; lia|]);
  discriminate Ho.

Lemma sample_heap_wf : wf_heap sample_heap.
Proof. solve_wf_heap. Qed.

Lemma sample_init :
  __init__ base_init_example (VStr "Summarize pricing") (VRef 2) (VRef 0) (VRef 3)
    sample_world = inr (sample_self, sample_built).
Proof. vm_compute. reflexivity. Qed.

Lemma sample_super_keeps_snapshots :
  super_keeps_snapshots base_init_example (VStr "Summarize pricing") (VRef 2)
    (VRef 0) (VRef 3) sample_world.
Proof.
  intros self0 w0 self w' Hs Hb.
  vm_compute in Hs. injection Hs as <- <-.
  vm_compute in Hb. injection Hb as <- <-.
  split; [reflexivity|]. split; [reflexivity|].
  intros a Ha. simpl in Ha.
  do 8 (destruct a as [|a]; [first [lia | reflexivity]|]). lia.
Qed.

(** C9: the snapshots are taken before the superclass constructor runs,
    so the configuration bound into the iterator node reads exactly as the
    caller's configuration did when it was passed, whatever the base-class
    initialisation does to the caller's configuration afterwards. *)
Theorem snapshot_precedes_super_init (super_init : base_init)
    (prompt source config schema : value) (w : world) (self : instance) (w' : world) :
  wf_heap (w_heap w) ->
  val_below (length (w_heap w)) config ->
  val_below (length (w_heap w)) schema ->
  super_keeps_snapshots super_init prompt source config schema w ->
  __init__ super_init prompt source config schema w = inr (self, w') ->
  exists cc,
    copy_config self = Some cc /\
    (forall w1 gid w2 g,
        _create_graph self w1 = inr (gid, w2) -> w_graphs w2 !! gid = Some g ->
        scraper_config (entry_point g) = Some cc) /\
    forall d, reify d (w_heap w') cc = reify d (w_heap w) config.
Proof.
  intros Hwf Hc Hs Hkeep Hinit.
  destruct (init_snapshot _ _ _ _ _ _ _ _ Hwf Hc Hs Hkeep Hinit)
    as (cc & cs & self0 & w0 & _ & Hcc & _ & _ & _ & _ & _ & Hsame & _).
  exists cc. split; [done|]. split; [|done].
  intros w1 gid w2 g Hg Hl.
  destruct (create_graph_lookup _ _ _ _ _ Hg Hl) as (cc' & cs' & llm & sch & H1 & _ & _ & _ & ->).
  rewrite Hcc in H1. by injection H1 as <-.
Qed.

(** On the sample, the base initialiser adds a temperature to the
    caller's model configuration; the snapshot still reads as passed. *)
Lemma snapshot_precedes_super_init_witness :
  reify 3 (w_heap sample_built) (VRef 0) =
    TDict [("llm", TDict [("model", TAtom (VStr "openai/gpt-3.5-turbo"));
                          ("temperature", TAtom (VInt 0))]);
           ("verbose", TAtom (VBool true))]
  /\ exists cc,
    copy_config sample_self = Some cc /\
    (forall w1 gid w2 g,
        _create_graph sample_self w1 = inr (gid, w2) -> w_graphs w2 !! gid = Some g ->
        scraper_config (entry_point g) = Some cc) /\
    forall d, reify d (w_heap sample_built) cc = reify d sample_heap (VRef 0).
Proof.
  split; [reflexivity|].
  apply (snapshot_precedes_super_init base_init_example (VStr "Summarize pricing")
           (VRef 2) (VRef 0) (VRef 3) sample_world sample_self sample_built).
  - exact sample_heap_wf.
  - simpl. lia.
  - simpl. lia.
  - exact sample_super_keeps_snapshots.
  - exact sample_init.
Defined.

(** C1: after construction, whatever is done to the caller's
    configuration object, or to any object other than those the
    constructor allocated for its snapshots, leaves the configuration
    bound into the iterator node reading as it did: the snapshot shares
    no object with the caller. *)
Theorem snapshot_independent_of_caller (super_init : base_init)
    (prompt source config schema : value) (w : world) (self : instance) (w' : world) :
  wf_heap (w_heap w) ->
  val_below (length (w_heap w)) config ->
  val_below (length (w_heap w)) schema ->
  super_keeps_snapshots super_init prompt source config schema w ->
  __init__ super_init prompt source config schema w = inr (self, w') ->
  exists cc self0 w0,
    snapshots config schema w = inr (self0, w0) /\
    copy_config self = Some cc /\
    (forall w1 gid w2 g,
        _create_graph self w1 = inr (gid, w2) -> w_graphs w2 !! gid = Some g ->
        scraper_config (entry_point g) = Some cc) /\
    forall mus,
      Forall (spares (length (w_heap w)) (length (w_heap w0))) mus ->
      forall d, reify d (apply_mutations (w_heap w') mus) cc = reify d (w_heap w') cc.
Proof.
  intros Hwf Hc Hs Hkeep Hinit.
  destruct (init_snapshot _ _ _ _ _ _ _ _ Hwf Hc Hs Hkeep Hinit)
    as (cc & cs & self0 & w0 & Hsnap & Hcc & _ & Hlt & Hin & _ & Hcl & _ & _).
  exists cc, self0, w0. split; [done|]. split; [done|]. split.
  - intros w1 gid w2 g Hg Hl.
    destruct (create_graph_lookup _ _ _ _ _ Hg Hl) as (cc' & cs' & llm & sch & H1 & _ & _ & _ & ->).
    rewrite Hcc in H1. by injection H1 as <-.
  - intros mus Hmus d.
    apply (reify_region (length (w_heap w)) (length (w_heap w0))); [done| |done].
    intros a Ha. apply (apply_mutations_frame _ _ _ Hmus); [done | by apply Hlt].
Qed.

(** The caller rewrites both dicts of its configuration and hangs a new
    dict into it, which it then fills; the snapshot reads as before, the
    caller's own object does not. *)
Lemma snapshot_independent_of_caller_witness :
  reify 3 (apply_mutations (w_heap sample_built) sample_mutations) (VRef 0)
    = TDict [("llm", TDict [("model", TAtom (VStr "other/model"))]);
             ("verbose", TAtom (VBool false));
             ("loader_kwargs", TDict [("proxy", TAtom (VStr "socks5://p"))])]
  /\ reify 3 (apply_mutations (w_heap sample_built) sample_mutations) (VRef 5)
    = reify 3 (w_heap sample_built) (VRef 5).
Proof.
  split; [reflexivity|].
  destruct (snapshot_independent_of_caller base_init_example (VStr "Summarize pricing")
              (VRef 2) (VRef 0) (VRef 3) sample_world sample_self sample_built)
    as (cc & self0 & w0 & Hsnap & Hcc & _ & Hmus).
  - exact sample_heap_wf.
  - simpl. lia.
  - simpl. lia.
  - exact sample_super_keeps_snapshots.
  - exact sample_init.
  - injection Hcc as <-. apply Hmus.
    vm_compute in Hsnap. injection Hsnap as <- <-.
    repeat constructor; simpl; lia.
Defined.

(** * The pipeline under the engine of the spec *)

Lemma input_keys_iterator : input_keys "user_prompt & urls" = ["user_prompt"; "urls"].
Proof. reflexivity. Qed.

Lemma input_keys_merge : input_keys "user_prompt & scripts" = ["user_prompt"; "scripts"].
Proof. reflexivity. Qed.

Lemma as_strs_fmap (us : list string) : as_strs (VStr <$> us) = inr us.
Proof.
  induction us as [|u us IH]; [done|].
  rewrite fmap_cons. cbn [as_strs as_str rbind]. by rewrite IH.
Qed.

Lemma built_by_create_graph_inv (g : BaseGraph) :
  built_by_create_graph g ->
  exists cc cs llm sch,
    g = mk_graph
         [mk_node GraphIteratorNode "user_prompt & urls" ["scripts"]
            [("graph_instance", VClass "ScriptCreatorGraph"); ("scraper_config", cc)]
            (Some cs);
          mk_node MergeGeneratedScriptsNode "user_prompt & scripts" ["merged_script"]
            [("llm_model", llm); ("schema", sch)] None]
         [(mk_node GraphIteratorNode "user_prompt & urls" ["scripts"]
             [("graph_instance", VClass "ScriptCreatorGraph"); ("scraper_config", cc)]
             (Some cs),
           mk_node MergeGeneratedScriptsNode "user_prompt & scripts" ["merged_script"]
             [("llm_model", llm); ("schema", sch)] None)]
         (mk_node GraphIteratorNode "user_prompt & urls" ["scripts"]
            [("graph_instance", VClass "ScriptCreatorGraph"); ("scraper_config", cc)]
            (Some cs))
         "ScriptCreatorMultiGraph".
Proof.
  intros (self & w & gid & w' & Hg & Hl).
  destruct (create_graph_lookup _ _ _ _ _ Hg Hl) as (cc & cs & llm & sch & _ & _ & _ & _ & ->).
  by exists cc, cs, llm, sch.
Qed.

Section SpecEngine.
Variable sub_pipeline : heap -> string -> string -> value -> option value -> option string.
Variable llm_merge : string -> list string -> value -> value -> option string.

(** What [run] computes on a ready workflow: the iterator's scripts are
    stored as a new list, and the merge either adds its text to the state
    or leaves the state alone. *)
Lemma run_spec_execute (self : instance) (w : world) (p : string)
    (us : list string) (g : BaseGraph) :
  ready self w p us g ->
  exists a cc cs llm sch mg,
    source self = Some (VRef a) /\
    nodes g = [entry_point g; mg] /\
    scraper_config (entry_point g) = Some cc /\
    node_schema (entry_point g) = Some cs /\
    dict_get (node_config mg) "llm_model" = Some llm /\
    dict_get (node_config mg) "schema" = Some sch /\
    let scripts := (iterator_stage sub_pipeline (w_heap w) p us cc (Some cs)).1 in
    let failed := (iterator_stage sub_pipeline (w_heap w) p us cc (Some cs)).2 in
    let st := [("user_prompt", VStr p); ("urls", VRef a);
               ("scripts", VRef (length (w_heap w)))] in
    let merged := merge_stage llm_merge p scripts llm sch in
    run (spec_execute sub_pipeline llm_merge) self w =
      inr (set_results self
             match merged with
             | Some t => st ++ [("merged_script", VStr t)]
             | None => st
             end
             (mk_info [GraphIteratorNode; MergeGeneratedScriptsNode] failed),
           set_heap w (w_heap w ++ [OList (VStr <$> scripts)]),
           match merged with
           | Some t => VStr t
           | None => VStr failure_sentinel
           end).
Proof.
  intros [Hp (a & Hs & Ha) (gid & Hg & Hl) Hb].
  destruct (built_by_create_graph_inv g Hb) as (cc & cs & llm & sch & ->).
  exists a, cc, cs, llm, sch.
  eexists. split; [done|]. split; [reflexivity|]. repeat (split; [reflexivity|]).
  unfold run, run_inputs. rewrite Hp, Hs, Hg. simpl. rewrite Hl. simpl.
  unfold state_get. cbn. rewrite Ha, as_strs_fmap. cbn.
  destruct (iterator_stage sub_pipeline (w_heap w) p us cc (Some cs)) as [ok ko].
  cbn. unfold next_node at 1. cbn [edges]. rewrite filter_cons. cbn [fst snd].
  rewrite decide_True by done. cbn [snd].
  unfold run_node. cbn [node_cls input output node_config node_schema].
  rewrite input_keys_merge. unfold state_get. cbn.
  rewrite lookup_app_r by lia. rewrite Nat.sub_diag. cbn.
  rewrite as_strs_fmap. cbn.
  destruct (merge_stage llm_merge p ok llm sch) as [t|]; cbn;
    rewrite app_nil_r; by destruct (next_node _ _).
Qed.
End SpecEngine.

Lemma sample_graph_built : built_by_create_graph sample_graph.
Proof.
  exists sample_self, (mk_world [] []), 0, (mk_world [] [sample_graph]).
  split; reflexivity.
Qed.

Lemma sample_ready : ready sample_self sample_built "Summarize pricing" sample_urls sample_graph.
Proof.
  split.
  - reflexivity.
  - exists 2. split; reflexivity.
  - exists 0. split; reflexivity.
  - exact sample_graph_built.
Qed.

Lemma sample_ready_empty : ready sample_self_empty sample_built "Summarize pricing" [] sample_graph.
Proof.
  split.
  - reflexivity.
  - exists 4. split; reflexivity.
  - exists 0. split; reflexivity.
  - exact sample_graph_built.
Qed.

(** C2, as stated, fails: [run] has no handler, so when the engine
    raises, [run] raises; and when the final state holds [None] under
    ["merged_script"], [run] returns [None]. *)
Lemma run_raises_or_returns_none_example :
  run failing_engine sample_self sample_built = inl (KeyError "llm") /\
  exists self' w',
    run null_engine sample_self sample_built = inr (self', w', VNone) /\
    final_state self'
      = Some [("user_prompt", VStr "Summarize pricing"); ("urls", VRef 2);
              ("merged_script", VNone)].
Proof.
  split; [reflexivity|]. do 2 eexists. split; reflexivity.
Qed.

(** C2, amended: the outcome of [run] is that of [graph.execute] on the
    stored graph and the inputs built from [prompt] and [source].  When
    the engine raises, [run] raises the same exception.  When it returns
    a final state, [run] stores it and returns what it holds under
    ["merged_script"], whatever that value is, or the sentinel string
    when the key is missing. *)
Theorem run_outcome_follows_engine (execute : engine) (self : instance)
    (w : world) (p s : value) (gid : nat) (g : BaseGraph) :
  prompt self = Some p -> source self = Some s ->
  graph self = Some gid -> w_graphs w !! gid = Some g ->
  run execute self w =
    match execute g [("user_prompt", p); ("urls", s)] (w_heap w) with
    | inl e => inl e
    | inr (fs, info, h') =>
        inr (set_results self fs info, set_heap w h',
             match dict_get fs "merged_script" with
             | Some v => v
             | None => VStr "Failed to generate the script."
             end)
    end.
Proof.
  intros Hp Hs Hg Hl. unfold run, run_inputs.
  rewrite Hp, Hs, Hg. simpl. rewrite Hl. simpl.
  by destruct (execute g _ (w_heap w)) as [e|[[fs info] h']].
Qed.

Lemma run_outcome_follows_engine_witness :
  run (spec_execute sample_sub_pipeline sample_llm_merge) sample_self sample_built =
    match spec_execute sample_sub_pipeline sample_llm_merge sample_graph
            [("user_prompt", VStr "Summarize pricing"); ("urls", VRef 2)]
            (w_heap sample_built) with
    | inl e => inl e
    | inr (fs, info, h') =>
        inr (set_results sample_self fs info, set_heap sample_built h',
             match dict_get fs "merged_script" with
             | Some v => v
             | None => VStr "Failed to generate the script."
             end)
    end.
Proof.
  apply (run_outcome_follows_engine (spec_execute sample_sub_pipeline sample_llm_merge)
           sample_self sample_built (VStr "Summarize pricing") (VRef 2) 0 sample_graph);
    reflexivity.
Defined.

(** C3: with an empty URL list the iterator yields no script, the merge
    stage has nothing to merge, and [run] returns the literal sentinel
    string, normally. *)
Theorem empty_urls_return_sentinel
    (sub_pipeline : heap -> string -> string -> value -> option value -> option string)
    (llm_merge : string -> list string -> value -> value -> option string)
    (self : instance) (w : world) (p : string) (g : BaseGraph) :
  ready self w p [] g ->
  exists self' w' fs,
    run (spec_execute sub_pipeline llm_merge) self w
      = inr (self', w', VStr "Failed to generate the script.") /\
    final_state self' = Some fs /\
    dict_get fs "merged_script" = None /\
    dict_get fs "scripts" = Some (VRef (length (w_heap w))) /\
    w_heap w' !! length (w_heap w) = Some (OList []).
Proof.
  intros Hr.
  destruct (run_spec_execute sub_pipeline llm_merge self w p [] g Hr)
    as (a & cc & cs & llm & sch & mg & _ & _ & _ & _ & _ & _ & Hrun).
  cbv zeta in Hrun. simpl in Hrun. rewrite Hrun.
  do 3 eexists. split; [reflexivity|]. split; [reflexivity|].
  split; [reflexivity|]. split; [reflexivity|].
  simpl. rewrite lookup_app_r by lia. by rewrite Nat.sub_diag.
Qed.

Lemma empty_urls_return_sentinel_witness :
  exists self' w' fs,
    run (spec_execute sample_sub_pipeline sample_llm_merge) sample_self_empty sample_built
      = inr (self', w', VStr "Failed to generate the script.") /\
    final_state self' = Some fs /\
    dict_get fs "merged_script" = None /\
    dict_get fs "scripts" = Some (VRef (length (w_heap sample_built))) /\
    w_heap w' !! length (w_heap sample_built) = Some (OList []).
Proof.
  apply (empty_urls_return_sentinel sample_sub_pipeline sample_llm_merge
           sample_self_empty sample_built "Summarize pricing" sample_graph).
  exact sample_ready_empty.
Defined.

(** C10: the state keys are wired consistently.  The iterator writes
    under ["scripts"], the merge node reads ["user_prompt"] and
    ["scripts"] and writes under ["merged_script"], the key [run] reads;
    so whenever the merge stage produces a text from the iterator's
    scripts, [run] returns that text. *)
Theorem state_keys_wired
    (sub_pipeline : heap -> string -> string -> value -> option value -> option string)
    (llm_merge : string -> list string -> value -> value -> option string)
    (self : instance) (w : world) (p : string) (us : list string) (g : BaseGraph) :
  ready self w p us g ->
  exists mg,
    nodes g = [entry_point g; mg] /\
    input_keys (input (entry_point g)) = ["user_prompt"; "urls"] /\
    output (entry_point g) = ["scripts"] /\
    input_keys (input mg) = ["user_prompt"; "scripts"] /\
    output mg = ["merged_script"] /\
    forall cc cs llm sch t,
      scraper_config (entry_point g) = Some cc ->
      node_schema (entry_point g) = Some cs ->
      dict_get (node_config mg) "llm_model" = Some llm ->
      dict_get (node_config mg) "schema" = Some sch ->
      merge_stage llm_merge p
        (iterator_stage sub_pipeline (w_heap w) p us cc (Some cs)).1 llm sch = Some t ->
      exists self' w' fs,
        run (spec_execute sub_pipeline llm_merge) self w = inr (self', w', VStr t) /\
        final_state self' = Some fs /\
        dict_get fs "merged_script" = Some (VStr t).
Proof.
  intros Hr.
  destruct (run_spec_execute sub_pipeline llm_merge self w p us g Hr)
    as (a & cc & cs & llm & sch & mg & _ & Hn & Hcc & Hcs & Hllm & Hsch & Hrun).
  destruct (built_by_create_graph_inv g (ready_built _ _ _ _ _ Hr))
    as (cc0 & cs0 & llm0 & sch0 & ->).
  simpl in Hn. injection Hn as <-.
  eexists. split; [reflexivity|]. repeat (split; [reflexivity|]).
  intros cc' cs' llm' sch' t H1 H2 H3 H4 Hm.
  rewrite Hcc in H1. injection H1 as <-. rewrite Hcs in H2. injection H2 as <-.
  rewrite Hllm in H3. injection H3 as <-. rewrite Hsch in H4. injection H4 as <-.
  cbv zeta in Hrun. rewrite Hm in Hrun. rewrite Hrun.
  do 3 eexists. split; [reflexivity|]. split; reflexivity.
Qed.

Lemma state_keys_wired_witness :
  exists self' w' fs,
    run (spec_execute sample_sub_pipeline sample_llm_merge) sample_self sample_built
      = inr (self', w',
             VStr "# script for https://a.example/pricing; # script for https://b.example/pricing") /\
    final_state self' = Some fs /\
    dict_get fs "merged_script"
      = Some (VStr "# script for https://a.example/pricing; # script for https://b.example/pricing").
Proof.
  destruct (state_keys_wired sample_sub_pipeline sample_llm_merge
              sample_self sample_built "Summarize pricing" sample_urls sample_graph
              sample_ready)
    as (mg & Hn & _ & _ & _ & _ & Hrun).
  injection Hn as <-.
  apply (Hrun (VRef 5) (VRef 7) (VClass "ChatModel") (VRef 3)); reflexivity.
Defined.

(** * [run] over any engine *)

(** A normal return of [run], taken apart. *)
Lemma run_inv (execute : engine) (self : instance) (w : world)
    (self' : instance) (w' : world) (r : value) :
  run execute self w = inr (self', w', r) ->
  exists p s gid g fs info h',
    prompt self = Some p /\ source self = Some s /\
    graph self = Some gid /\ w_graphs w !! gid = Some g /\
    execute g [("user_prompt", p); ("urls", s)] (w_heap w) = inr (fs, info, h') /\
    self' = set_results self fs info /\ w' = set_heap w h' /\
    r = dict_get_default fs "merged_script" (VStr failure_sentinel).
Proof.
  unfold run, run_inputs. intros H.
  destruct (prompt self) as [p|]; [|done].
  destruct (source self) as [s|]; [|done].
  destruct (graph self) as [gid|]; [|done]. simpl in H.
  destruct (w_graphs w !! gid) as [g|] eqn:El; [|done]. simpl in H.
  destruct (execute g _ (w_heap w)) as [e|[[fs info] h']] eqn:E; [done|].
  simpl in H. injection H as <- <- <-.
  exists p, s, gid, g, fs, info, h'. by repeat split.
Qed.

(** An exception of the engine is the outcome of [run]. *)
Lemma run_propagates (execute : engine) (self : instance) (w : world)
    (p s : value) (gid : nat) (g : BaseGraph) (e : exn) :
  prompt self = Some p -> source self = Some s ->
  graph self = Some gid -> w_graphs w !! gid = Some g ->
  execute g [("user_prompt", p); ("urls", s)] (w_heap w) = inl e ->
  run execute self w = inl e.
Proof.
  intros Hp Hs Hg Hl He. unfold run, run_inputs.
  rewrite Hp, Hs, Hg. simpl. rewrite Hl. simpl. by rewrite He.
Qed.

Lemma sample_run_failing :
  run failing_engine sample_self sample_built = inl (KeyError "llm").
Proof. reflexivity. Qed.

(** C4, as stated, fails: [run] has no parameter for a prompt or for
    URLs, so a call that passes them is a [TypeError]. *)
Lemma run_takes_no_arguments_example :
  call_run (spec_execute sample_sub_pipeline sample_llm_merge) sample_self
    [VStr "Summarize pricing"; VRef 2] sample_built
  = inl (TypeError "run() takes 1 positional argument").
Proof. reflexivity. Qed.

(** C4, amended: [run] takes no argument besides the object.  The prompt
    and the URL sequence are the object's [prompt] and [source]
    attributes, from which [run] builds the initial inputs, and a normal
    return yields the value under ["merged_script"] of the final state,
    or the sentinel. *)
Theorem run_reads_prompt_and_source_of_self (execute : engine)
    (self : instance) (w : world) :
  call_run execute self [] w = run execute self w /\
  (forall a args, exists msg, call_run execute self (a :: args) w = inl (TypeError msg)) /\
  (forall p s, prompt self = Some p -> source self = Some s ->
     run_inputs self = inr [("user_prompt", p); ("urls", s)]) /\
  (forall self' w' r, run execute self w = inr (self', w', r) ->
     exists p s gid g fs info h',
       prompt self = Some p /\ source self = Some s /\
       graph self = Some gid /\ w_graphs w !! gid = Some g /\
       execute g [("user_prompt", p); ("urls", s)] (w_heap w) = inr (fs, info, h') /\
       r = dict_get_default fs "merged_script" (VStr failure_sentinel)).
Proof.
  split; [reflexivity|]. split; [by eexists|]. split.
  - intros p s Hp Hs. unfold run_inputs. by rewrite Hp, Hs.
  - intros self' w' r H.
    destruct (run_inv _ _ _ _ _ _ H)
      as (p & s & gid & g & fs & info & h' & H1 & H2 & H3 & H4 & H5 & _ & _ & H8).
    exists p, s, gid, g, fs, info, h'. by repeat split.
Qed.

(** C5, as stated, fails: the merge node of the sample workflow is bound
    to [self.llm_model] and [self.schema], the caller's own schema object
    (address 3), not to the copy (address 7), and it receives no
    configuration at all. *)
Lemma merge_node_not_bound_to_snapshots_example :
  __init__ base_init_example (VStr "Summarize pricing") (VRef 2) (VRef 0) (VRef 3)
    sample_world = inr (sample_self, sample_built) /\
  copy_schema sample_self = Some (VRef 7) /\
  schema sample_self = Some (VRef 3) /\
  exists gid w' g it mg,
    _create_graph sample_self sample_built = inr (gid, w') /\
    w_graphs w' !! gid = Some g /\
    nodes g = [it; mg] /\
    node_config mg = [("llm_model", VClass "ChatModel"); ("schema", VRef 3)] /\
    scraper_config mg = None /\
    node_schema mg = None.
Proof.
  split; [exact sample_init|]. split; [reflexivity|]. split; [reflexivity|].
  do 5 eexists. split; [reflexivity|]. split; [reflexivity|].
  split; [reflexivity|]. split; [reflexivity|]. split; reflexivity.
Qed.

(** C5, amended: the iterator node is bound to the two snapshots
    ([copy_config] as its ["scraper_config"], [copy_schema] as its
    schema); the merge node is bound to the object's [llm_model] and
    [schema] attributes. *)
Theorem nodes_bound_by_create_graph (self : instance) (w : world)
    (gid : nat) (w' : world) (g : BaseGraph) :
  _create_graph self w = inr (gid, w') ->
  w_graphs w' !! gid = Some g ->
  exists it mg,
    nodes g = [it; mg] /\
    node_cls it = GraphIteratorNode /\
    scraper_config it = copy_config self /\
    node_schema it = copy_schema self /\
    node_cls mg = MergeGeneratedScriptsNode /\
    dict_get (node_config mg) "llm_model" = llm_model self /\
    dict_get (node_config mg) "schema" = schema self /\
    scraper_config mg = None /\
    node_schema mg = None.
Proof.
  intros Hg Hl.
  destruct (create_graph_lookup _ _ _ _ _ Hg Hl)
    as (cc & cs & llm & sch & -> & -> & -> & -> & ->).
  do 2 eexists. split; [reflexivity|]. by repeat split.
Qed.

Lemma nodes_bound_by_create_graph_witness :
  exists it mg,
    nodes sample_graph = [it; mg] /\
    node_cls it = GraphIteratorNode /\
    scraper_config it = copy_config sample_self /\
    node_schema it = copy_schema sample_self /\
    node_cls mg = MergeGeneratedScriptsNode /\
    dict_get (node_config mg) "llm_model" = llm_model sample_self /\
    dict_get (node_config mg) "schema" = schema sample_self /\
    scraper_config mg = None /\
    node_schema mg = None.
Proof.
  apply (nodes_bound_by_create_graph sample_self (mk_world [] []) 0
           (mk_world [] [sample_graph]) sample_graph); reflexivity.
Defined.

(** C6, as stated, fails: two calls of [run] on the sample workflow both
    execute pipeline 0, built at construction, and neither adds a
    pipeline to the store. *)
Lemma run_reuses_pipeline_example :
  graph sample_self = Some 0 /\
  w_graphs sample_built = [sample_graph] /\
  exists self1 w1 r1 self2 w2 r2,
    run (spec_execute sample_sub_pipeline sample_llm_merge) sample_self sample_built
      = inr (self1, w1, r1) /\
    graph self1 = Some 0 /\ w_graphs w1 = [sample_graph] /\
    run (spec_execute sample_sub_pipeline sample_llm_merge) self1 w1
      = inr (self2, w2, r2) /\
    graph self2 = Some 0 /\ w_graphs w2 = [sample_graph].
Proof.
  split; [reflexivity|]. split; [reflexivity|].
  do 6 eexists. split; [vm_compute; reflexivity|].
  split; [reflexivity|]. split; [reflexivity|].
  split; [vm_compute; reflexivity|]. split; reflexivity.
Qed.

(** C6, amended: [run] builds no pipeline.  It executes the pipeline
    already stored under the object's [graph] attribute, and leaves that
    attribute and the store of pipelines as they were. *)
Theorem run_executes_stored_pipeline (execute : engine) (self : instance)
    (w : world) (self' : instance) (w' : world) (r : value) :
  run execute self w = inr (self', w', r) ->
  exists gid g inputs out,
    graph self = Some gid /\ w_graphs w !! gid = Some g /\
    execute g inputs (w_heap w) = inr out /\
    graph self' = Some gid /\
    w_graphs w' = w_graphs w.
Proof.
  intros H.
  destruct (run_inv _ _ _ _ _ _ H)
    as (p & s & gid & g & fs & info & h' & _ & _ & H3 & H4 & H5 & -> & -> & _).
  exists gid, g. do 2 eexists. split; [done|]. split; [done|].
  split; [exact H5|]. split; [done|reflexivity].
Qed.

Lemma run_executes_stored_pipeline_witness :
  exists gid g inputs out,
    graph sample_self = Some gid /\ w_graphs sample_built !! gid = Some g /\
    spec_execute sample_sub_pipeline sample_llm_merge g inputs (w_heap sample_built)
      = inr out /\
    graph (set_results sample_self
             [("user_prompt", VStr "Summarize pricing"); ("urls", VRef 2);
              ("scripts", VRef 8);
              ("merged_script",
               VStr "# script for https://a.example/pricing; # script for https://b.example/pricing")]
             (mk_info [GraphIteratorNode; MergeGeneratedScriptsNode] []))
      = Some gid /\
    w_graphs (set_heap sample_built
                (w_heap sample_built ++
                   [OList [VStr "# script for https://a.example/pricing";
                           VStr "# script for https://b.example/pricing"]]))
      = w_graphs sample_built.
Proof.
  apply (run_executes_stored_pipeline
           (spec_execute sample_sub_pipeline sample_llm_merge) sample_self sample_built
           _ _
           (VStr "# script for https://a.example/pricing; # script for https://b.example/pricing")).
  vm_compute. reflexivity.
Defined.

(** C7: the graph built by [_create_graph] has exactly the iterator node
    and the merge node, the iterator is its entry point, and its single
    edge leads from the iterator to the merge node; [run] starts the
    engine on that graph with the inputs ["user_prompt"] and ["urls"] and
    nothing else.  Under the engine of the spec the iterator runs first
    and the merge node second, on the scripts the iterator has stored. *)
Theorem pipeline_is_iterator_then_merge (self : instance)
    (w : world) (gid : nat) (w' : world) (g : BaseGraph) :
  _create_graph self w = inr (gid, w') ->
  w_graphs w' !! gid = Some g ->
  exists it mg cc cs llm sch,
    nodes g = [it; mg] /\
    edges g = [(it, mg)] /\
    entry_point g = it /\
    node_cls it = GraphIteratorNode /\
    node_cls mg = MergeGeneratedScriptsNode /\
    graph_name g = "ScriptCreatorMultiGraph" /\
    scraper_config it = Some cc /\ node_schema it = Some cs /\
    dict_get (node_config mg) "llm_model" = Some llm /\
    dict_get (node_config mg) "schema" = Some sch /\
    (forall (execute : engine) runner wr gidr p s,
       prompt runner = Some p -> source runner = Some s ->
       graph runner = Some gidr -> w_graphs wr !! gidr = Some g ->
       run_inputs runner = inr [("user_prompt", p); ("urls", s)] /\
       run execute runner wr =
         let* (fs, info, h') :=
           execute g [("user_prompt", p); ("urls", s)] (w_heap wr) in
         inr (set_results runner fs info, set_heap wr h',
              dict_get_default fs "merged_script" (VStr failure_sentinel))) /\
    (forall sub_pipeline llm_merge runner wr p us,
       ready runner wr p us g ->
       exists runner' wr' r fs info,
         run (spec_execute sub_pipeline llm_merge) runner wr = inr (runner', wr', r) /\
         final_state runner' = Some fs /\
         execution_info runner' = Some info /\
         visited info = [GraphIteratorNode; MergeGeneratedScriptsNode] /\
         dict_get fs "scripts" = Some (VRef (length (w_heap wr))) /\
         w_heap wr' !! length (w_heap wr)
           = Some (OList (VStr <$>
                (iterator_stage sub_pipeline (w_heap wr) p us cc (Some cs)).1)) /\
         r = match merge_stage llm_merge p
                     (iterator_stage sub_pipeline (w_heap wr) p us cc (Some cs)).1
                     llm sch with
             | Some t => VStr t
             | None => VStr failure_sentinel
             end).
Proof.
  intros Hg Hl.
  destruct (create_graph_lookup _ _ _ _ _ Hg Hl)
    as (cc & cs & llm & sch & _ & _ & _ & _ & ->).
  eexists. eexists. exists cc, cs, llm, sch. simpl.
  split; [reflexivity|]. repeat (split; [reflexivity|]). split.
  - intros execute runner wr gidr p s Hp Hs Hgr Hlr.
    unfold run, run_inputs. rewrite Hp, Hs, Hgr. simpl. rewrite Hlr. by simpl.
  - intros sub_pipeline llm_merge runner wr p us Hr.
    destruct (run_spec_execute sub_pipeline llm_merge runner wr p us _ Hr)
      as (a & cc' & cs' & llm' & sch' & mg' & _ & Hn & Hcc & Hcs & Hllm & Hsch & Hrun).
    simpl in Hn. injection Hn as <-.
    cbv in Hcc, Hcs, Hllm, Hsch.
    injection Hcc as <-. injection Hcs as <-. injection Hllm as <-. injection Hsch as <-.
    cbv zeta in Hrun. rewrite Hrun.
    do 5 eexists. split; [reflexivity|]. split; [reflexivity|]. split; [reflexivity|].
    split; [reflexivity|].
    split; [by destruct (merge_stage _ _ _ _ _)|].
    split; [|reflexivity].
    simpl. rewrite lookup_app_r by lia. by rewrite Nat.sub_diag.
Qed.

(** On the sample, under the engine of the spec: both scripts are stored
    by the iterator, then merged. *)
Lemma pipeline_is_iterator_then_merge_witness :
  exists runner' wr' fs info,
    run (spec_execute sample_sub_pipeline sample_llm_merge) sample_self sample_built
      = inr (runner', wr',
             VStr "# script for https://a.example/pricing; # script for https://b.example/pricing") /\
    final_state runner' = Some fs /\
    execution_info runner' = Some info /\
    visited info = [GraphIteratorNode; MergeGeneratedScriptsNode] /\
    dict_get fs "scripts" = Some (VRef 8) /\
    w_heap wr' !! 8
      = Some (OList [VStr "# script for https://a.example/pricing";
                     VStr "# script for https://b.example/pricing"]).
Proof.
  destruct (pipeline_is_iterator_then_merge sample_self (mk_world [] []) 0
              (mk_world [] [sample_graph]) sample_graph eq_refl eq_refl)
    as (it & mg & cc & cs & llm & sch & Hn & _ & _ & _ & _ & _ & Hcc & Hcs & Hllm & Hsch
        & _ & Hspec).
  injection Hn as <- <-.
  cbv in Hcc, Hcs, Hllm, Hsch.
  injection Hcc as <-. injection Hcs as <-. injection Hllm as <-. injection Hsch as <-.
  destruct (Hspec sample_sub_pipeline sample_llm_merge sample_self sample_built
              "Summarize pricing" sample_urls sample_ready)
    as (runner' & wr' & r & fs & info & Hrun & Hfs & Hinfo & Hv & Hk & Hl & ->).
  exists runner', wr', fs, info. by repeat split.
Defined.

(** Under the engine of the spec the two nodes run in that order. *)
Lemma sample_visits_iterator_then_merge :
  exists self' w' r,
    run (spec_execute sample_sub_pipeline sample_llm_merge) sample_self sample_built
      = inr (self', w', r) /\
    visited <$> execution_info self'
      = Some [GraphIteratorNode; MergeGeneratedScriptsNode].
Proof. do 3 eexists. split; [vm_compute; reflexivity|reflexivity]. Qed.

(** C8, as stated, fails: after [run] on the sample workflow the object
    still holds its configuration snapshot, and it now holds the final
    state and the execution metadata of the call. *)
Lemma run_leaves_results_on_self_example :
  final_state sample_self = None /\
  execution_info sample_self = None /\
  exists self' w' r fs info,
    run (spec_execute sample_sub_pipeline sample_llm_merge) sample_self sample_built
      = inr (self', w', r) /\
    copy_config self' = Some (VRef 5) /\
    final_state self' = Some fs /\
    execution_info self' = Some info /\
    dict_get fs "merged_script" = Some r.
Proof.
  split; [reflexivity|]. split; [reflexivity|].
  do 5 eexists. split; [vm_compute; reflexivity|].
  split; [reflexivity|]. split; [reflexivity|]. split; reflexivity.
Qed.

(** C8, amended: the snapshots are taken once, at construction, and stay
    on the object.  [run] rebinds none of the attributes it reads: each
    holds the same reference as before (what the engine does to the
    objects behind them is the engine's).  It stores exactly the final
    state and the execution metadata that [graph.execute] returned for
    this call in [final_state] and [execution_info], where they remain
    after the call has returned, and it leaves the heap as the engine
    left it. *)
Theorem run_stores_results_keeps_snapshots (execute : engine) (self : instance)
    (w : world) (self' : instance) (w' : world) (r : value) :
  run execute self w = inr (self', w', r) ->
  exists p s gid g fs info h',
    prompt self = Some p /\ source self = Some s /\
    graph self = Some gid /\ w_graphs w !! gid = Some g /\
    execute g [("user_prompt", p); ("urls", s)] (w_heap w) = inr (fs, info, h') /\
    final_state self' = Some fs /\
    execution_info self' = Some info /\
    w_heap w' = h' /\
    w_graphs w' = w_graphs w /\
    copy_config self' = copy_config self /\
    copy_schema self' = copy_schema self /\
    prompt self' = prompt self /\
    source self' = source self /\
    config self' = config self /\
    schema self' = schema self /\
    llm_model self' = llm_model self /\
    graph self' = graph self /\
    r = dict_get_default fs "merged_script" (VStr failure_sentinel).
Proof.
  intros H.
  destruct (run_inv _ _ _ _ _ _ H)
    as (p & s & gid & g & fs & info & h' & Hp & Hs & Hg & Hl & He & -> & -> & ->).
  exists p, s, gid, g, fs, info, h'. by repeat split.
Qed.

Lemma run_stores_results_keeps_snapshots_witness :
  exists p s gid g fs info h',
    prompt sample_self = Some p /\ source sample_self = Some s /\
    graph sample_self = Some gid /\ w_graphs sample_built !! gid = Some g /\
    rewriting_engine g [("user_prompt", p); ("urls", s)] (w_heap sample_built)
      = inr (fs, info, h') /\
    final_state (set_results sample_self
                   [("user_prompt", VStr "Summarize pricing"); ("urls", VRef 2)]
                   (mk_info [GraphIteratorNode] [])) = Some fs /\
    execution_info (set_results sample_self
                      [("user_prompt", VStr "Summarize pricing"); ("urls", VRef 2)]
                      (mk_info [GraphIteratorNode] [])) = Some info /\
    <[5:=ODict [("llm", VRef 6); ("verbose", VBool true); ("temperature", VInt 0)]]>
      (w_heap sample_built) = h'.
Proof.
  destruct (run_stores_results_keeps_snapshots rewriting_engine sample_self sample_built
              (set_results sample_self
                 [("user_prompt", VStr "Summarize pricing"); ("urls", VRef 2)]
                 (mk_info [GraphIteratorNode] []))
              (set_heap sample_built
                 (<[5:=ODict [("llm", VRef 6); ("verbose", VBool true);
                              ("temperature", VInt 0)]]> (w_heap sample_built)))
              (VStr "Failed to generate the script.") eq_refl)
    as (p & s & gid & g & fs & info & h' & H1 & H2 & H3 & H4 & H5 & H6 & H7 & H8 & _).
  exists p, s, gid, g, fs, info, h'. by repeat split.
Defined.

(** The attribute is kept, the object behind it need not be: with an
    engine that writes into the snapshot's dict, [copy_config] holds the
    same reference after [run], and reads differently. *)
Lemma run_may_rewrite_snapshot_objects :
  exists self' w' r,
    run rewriting_engine sample_self sample_built = inr (self', w', r) /\
    copy_config self' = copy_config sample_self /\
    copy_config self' = Some (VRef 5) /\
    reify 1 (w_heap sample_built) (VRef 5)
      = TDict [("llm", TCut); ("verbose", TAtom (VBool true))] /\
    reify 1 (w_heap w') (VRef 5)
      = TDict [("llm", TCut); ("verbose", TAtom (VBool true));
               ("temperature", TAtom (VInt 0))].
Proof.
  do 3 eexists. split; [reflexivity|]. by repeat split.
Qed.

(** * Further properties of [run] *)

(** X1: [run] fails exactly when an attribute it reads is unset or the
    engine raises, and then it fails with that very exception; the
    attributes are read in the order [prompt], [source], [graph], before
    the engine is called. *)
Theorem run_fails_iff (execute : engine) (self : instance) (w : world) (e : exn) :
  graph_stored self w ->
  run execute self w = inl e <->
    (prompt self = None /\ e = AttributeError "prompt") \/
    (is_Some (prompt self) /\ source self = None /\ e = AttributeError "source") \/
    (is_Some (prompt self) /\ is_Some (source self) /\ graph self = None /\
       e = AttributeError "graph") \/
    (exists p s gid g,
       prompt self = Some p /\ source self = Some s /\
       graph self = Some gid /\ w_graphs w !! gid = Some g /\
       execute g [("user_prompt", p); ("urls", s)] (w_heap w) = inl e).
Proof.
  intros Hst. unfold run, run_inputs.
  destruct (prompt self) as [p|] eqn:Ep; simpl.
  2:{ split; [intros [= <-]; by left|].
      intros [[_ ->]|[([? ?] & _)|[([? ?] & _)|(? & ? & ? & ? & ? & _)]]]; done. }
  destruct (source self) as [s|] eqn:Es; simpl.
  2:{ split; [intros [= <-]; right; left; eauto|].
      intros [[? _]|[(_ & _ & ->)|[(_ & [? ?] & _)|(? & ? & ? & ? & _ & ? & _)]]]; done. }
  destruct (graph self) as [gid|] eqn:Eg; simpl.
  2:{ split; [intros [= <-]; right; right; left; eauto|].
      intros [[? _]|[(_ & ? & _)|[(_ & _ & _ & ->)|(? & ? & ? & ? & _ & _ & ? & _)]]]; done. }
  destruct (Hst gid Eg) as [g Hg]. rewrite Hg. simpl.
  split.
  - intros H. do 3 right. exists p, s, gid, g. repeat (split; [done|]).
    by destruct (execute g _ (w_heap w)) as [e'|[[fs info] h']]; simplify_eq/=.
  - intros [[? _]|[(_ & ? & _)|[(_ & _ & ? & _)|(p' & s' & gid' & g' & ? & ? & ? & Hg' & He)]]];
      try done.
    simplify_eq. by rewrite He.
Qed.

Lemma run_fails_iff_witness :
  run failing_engine sample_self sample_built = inl (KeyError "llm") <->
    (prompt sample_self = None /\ KeyError "llm" = AttributeError "prompt") \/
    (is_Some (prompt sample_self) /\ source sample_self = None /\
       KeyError "llm" = AttributeError "source") \/
    (is_Some (prompt sample_self) /\ is_Some (source sample_self) /\
       graph sample_self = None /\ KeyError "llm" = AttributeError "graph") \/
    (exists p s gid g,
       prompt sample_self = Some p /\ source sample_self = Some s /\
       graph sample_self = Some gid /\ w_graphs sample_built !! gid = Some g /\
       failing_engine g [("user_prompt", p); ("urls", s)] (w_heap sample_built)
         = inl (KeyError "llm")).
Proof.
  apply (run_fails_iff failing_engine sample_self sample_built (KeyError "llm")).
  intros gid Hg. injection Hg as <-. by eexists.
Defined.

(** X2: [run] returns whatever the final state holds under
    ["merged_script"], be it [None] or an empty string; the sentinel
    stands in only when the key is missing. *)
Theorem run_returns_value_under_key (execute : engine) (self : instance)
    (w : world) (p s : value) (gid : nat) (g : BaseGraph)
    (fs : dict) (info : exec_info) (h' : heap) :
  prompt self = Some p -> source self = Some s ->
  graph self = Some gid -> w_graphs w !! gid = Some g ->
  execute g [("user_prompt", p); ("urls", s)] (w_heap w) = inr (fs, info, h') ->
  exists r,
    run execute self w = inr (set_results self fs info, set_heap w h', r) /\
    (forall v, dict_get fs "merged_script" = Some v -> r = v) /\
    (dict_get fs "merged_script" = None -> r = VStr "Failed to generate the script.").
Proof.
  intros Hp Hs Hg Hl He. unfold run, run_inputs.
  rewrite Hp, Hs, Hg. simpl. rewrite Hl. simpl. rewrite He. simpl.
  eexists. split; [reflexivity|]. unfold dict_get_default.
  split; [intros v ->; reflexivity | intros ->; reflexivity].
Qed.

Lemma run_returns_value_under_key_witness :
  exists self' w', run null_engine sample_self sample_built = inr (self', w', VNone).
Proof.
  destruct (run_returns_value_under_key null_engine sample_self sample_built
              (VStr "Summarize pricing") (VRef 2) 0 sample_graph
              [("user_prompt", VStr "Summarize pricing"); ("urls", VRef 2);
               ("merged_script", VNone)]
              (mk_info [] []) (w_heap sample_built))
    as (r & Hrun & Hv & _); try reflexivity.
  rewrite (Hv VNone eq_refl) in Hrun. eauto.
Defined.

(** X3: a second [run] on the object the first one left executes the same
    pipeline on the same inputs, and its results replace those of the
    first call: nothing of the first final state or metadata remains. *)
Theorem run_twice_keeps_last_results (execute : engine) (self : instance)
    (w : world) (self1 : instance) (w1 : world) (r1 : value)
    (self2 : instance) (w2 : world) (r2 : value) :
  run execute self w = inr (self1, w1, r1) ->
  run execute self1 w1 = inr (self2, w2, r2) ->
  exists g inputs fs1 info1 fs2 info2 h2,
    execute g inputs (w_heap w) = inr (fs1, info1, w_heap w1) /\
    execute g inputs (w_heap w1) = inr (fs2, info2, h2) /\
    self2 = set_results self fs2 info2 /\
    w2 = set_heap w h2 /\
    r2 = dict_get_default fs2 "merged_script" (VStr failure_sentinel).
Proof.
  intros H1 H2.
  destruct (run_inv _ _ _ _ _ _ H1)
    as (p & s & gid & g & fs1 & info1 & h1 & Hp & Hs & Hg & Hl & He1 & -> & -> & _).
  destruct (run_inv _ _ _ _ _ _ H2)
    as (p' & s' & gid' & g' & fs2 & info2 & h2 & Hp' & Hs' & Hg' & Hl' & He2 & -> & -> & ->).
  simpl in *. simplify_eq.
  exists g, [("user_prompt", p); ("urls", s)], fs1, info1, fs2, info2, h2.
  by repeat split.
Qed.

Lemma run_twice_keeps_last_results_witness :
  exists self1 w1 r1 self2 w2 r2,
    run (spec_execute sample_sub_pipeline sample_llm_merge) sample_self sample_built
      = inr (self1, w1, r1) /\
    run (spec_execute sample_sub_pipeline sample_llm_merge) self1 w1
      = inr (self2, w2, r2) /\
    exists g inputs fs1 info1 fs2 info2 h2,
      spec_execute sample_sub_pipeline sample_llm_merge g inputs (w_heap sample_built)
        = inr (fs1, info1, w_heap w1) /\
      spec_execute sample_sub_pipeline sample_llm_merge g inputs (w_heap w1)
        = inr (fs2, info2, h2) /\
      self2 = set_results sample_self fs2 info2 /\
      w2 = set_heap sample_built h2 /\
      r2 = dict_get_default fs2 "merged_script" (VStr failure_sentinel).
Proof.
  do 6 eexists.
  assert (H1 : run (spec_execute sample_sub_pipeline sample_llm_merge) sample_self
                 sample_built
               = inr (set_results sample_self
                   [("user_prompt", VStr "Summarize pricing"); ("urls", VRef 2);
                    ("scripts", VRef 8);
                    ("merged_script",
                     VStr "# script for https://a.example/pricing; # script for https://b.example/pricing")]
                   (mk_info [GraphIteratorNode; MergeGeneratedScriptsNode] []),
                 set_heap sample_built
                   (w_heap sample_built ++
                      [OList [VStr "# script for https://a.example/pricing";
                              VStr "# script for https://b.example/pricing"]]),
                 VStr "# script for https://a.example/pricing; # script for https://b.example/pricing"))
    by (vm_compute; reflexivity).
  split; [exact H1|].
  split; [vm_compute; reflexivity|].
  eapply (run_twice_keeps_last_results _ _ _ _ _ _ _ _ _ H1).
  vm_compute. reflexivity.
Defined.

(** * Further properties of [_create_graph] *)

(** X4: [_create_graph] returns a graph exactly when the four attributes
    it reads are set; otherwise it raises [AttributeError] for the first
    unset one, in the order [copy_config], [copy_schema], [llm_model],
    [schema]. *)
Theorem create_graph_succeeds_iff (self : instance) (w : world) :
  ((exists gid w', _create_graph self w = inr (gid, w')) <->
     is_Some (copy_config self) /\ is_Some (copy_schema self) /\
     is_Some (llm_model self) /\ is_Some (schema self)) /\
  (forall e, _create_graph self w = inl e ->
     (copy_config self = None /\ e = AttributeError "copy_config") \/
     (is_Some (copy_config self) /\ copy_schema self = None /\
        e = AttributeError "copy_schema") \/
     (is_Some (copy_config self) /\ is_Some (copy_schema self) /\
        llm_model self = None /\ e = AttributeError "llm_model") \/
     (is_Some (copy_config self) /\ is_Some (copy_schema self) /\
        is_Some (llm_model self) /\ schema self = None /\
        e = AttributeError "schema")).
Proof.
  unfold _create_graph.
  destruct (copy_config self) as [cc|]; simpl.
  2:{ split; [split; [by intros (? & ? & ?) | by intros ([? ?] & _)]|].
      intros e [= <-]. by left. }
  destruct (copy_schema self) as [cs|]; simpl.
  2:{ split; [split; [by intros (? & ? & ?) | by intros (_ & [? ?] & _)]|].
      intros e [= <-]. right. left. eauto. }
  destruct (llm_model self) as [llm|]; simpl.
  2:{ split; [split; [by intros (? & ? & ?) | by intros (_ & _ & [? ?] & _)]|].
      intros e [= <-]. right. right. left. eauto. }
  destruct (schema self) as [sch|]; simpl.
  2:{ split; [split; [by intros (? & ? & ?) | by intros (_ & _ & _ & [? ?])]|].
      intros e [= <-]. do 3 right. eauto. }
  split; [|done]. split; [eauto|]. intros _. eauto.
Qed.

(** X5: [_create_graph] adds exactly one graph to the store, after the
    graphs already there, and touches nothing else: the heap and every
    earlier graph are as before. *)
Theorem create_graph_frame (self : instance) (w : world) (gid : nat) (w' : world) :
  _create_graph self w = inr (gid, w') ->
  w_heap w' = w_heap w /\
  gid = length (w_graphs w) /\
  length (w_graphs w') = S (length (w_graphs w)) /\
  is_Some (w_graphs w' !! gid) /\
  forall i g, w_graphs w !! i = Some g -> w_graphs w' !! i = Some g.
Proof.
  intros H.
  destruct (create_graph_inv _ _ _ _ H)
    as (cc & cs & llm & sch & _ & _ & _ & _ & -> & Hh & Hg).
  split; [done|]. split; [done|]. rewrite Hg.
  split; [rewrite length_app; simpl; lia|].
  split.
  - apply lookup_lt_is_Some. rewrite length_app. simpl. lia.
  - intros i g Hi. by apply lookup_app_l_Some.
Qed.

Lemma create_graph_frame_witness :
  exists gid w',
    _create_graph sample_self sample_built = inr (gid, w') /\
    w_heap w' = w_heap sample_built /\
    gid = length (w_graphs sample_built) /\
    length (w_graphs w') = S (length (w_graphs sample_built)) /\
    is_Some (w_graphs w' !! gid) /\
    forall i g, w_graphs sample_built !! i = Some g -> w_graphs w' !! i = Some g.
Proof.
  do 2 eexists. split; [reflexivity|].
  apply (create_graph_frame sample_self sample_built). reflexivity.
Defined.

(** The pipeline depends on the four attributes [copy_config],
    [copy_schema], [llm_model] and [schema] only: it embeds neither the
    prompt nor the URLs, nor anything a previous run left on the
    object. *)
Theorem create_graph_reads_four_attributes (self1 self2 : instance) (w : world) :
  copy_config self1 = copy_config self2 ->
  copy_schema self1 = copy_schema self2 ->
  llm_model self1 = llm_model self2 ->
  schema self1 = schema self2 ->
  _create_graph self1 w = _create_graph self2 w.
Proof.
  intros H1 H2 H3 H4. unfold _create_graph. by rewrite H1, H2, H3, H4.
Qed.

Lemma create_graph_reads_four_attributes_witness :
  source sample_self = Some (VRef 2) /\
  source sample_self_empty = Some (VRef 4) /\
  _create_graph sample_self sample_built = _create_graph sample_self_empty sample_built.
Proof.
  split; [reflexivity|]. split; [reflexivity|].
  apply (create_graph_reads_four_attributes sample_self sample_self_empty sample_built);
    reflexivity.
Defined.

(** X6: building twice from the same object succeeds twice and gives two
    distinct pipeline objects that are equal as graphs and hand the very
    same configuration snapshot to their iterator nodes. *)
Theorem create_graph_twice_shares_snapshot (self : instance) (w : world)
    (gid1 : nat) (w1 : world) :
  _create_graph self w = inr (gid1, w1) ->
  exists gid2 w2 g,
    _create_graph self w1 = inr (gid2, w2) /\
    gid2 = S gid1 /\
    w_graphs w2 !! gid1 = Some g /\
    w_graphs w2 !! gid2 = Some g /\
    scraper_config (entry_point g) = copy_config self /\
    node_schema (entry_point g) = copy_schema self.
Proof.
  intros H1.
  destruct (create_graph_inv _ _ _ _ H1)
    as (cc & cs & llm & sch & Hcc & Hcs & Hllm & Hsch & -> & Hh1 & Hg1).
  assert (H2 : exists gid2 w2, _create_graph self w1 = inr (gid2, w2)).
  { apply (create_graph_succeeds_iff self w1). rewrite Hcc, Hcs, Hllm, Hsch. eauto. }
  destruct H2 as (gid2 & w2 & H2).
  destruct (create_graph_inv _ _ _ _ H2)
    as (cc' & cs' & llm' & sch' & Hcc' & Hcs' & Hllm' & Hsch' & -> & Hh2 & Hg2).
  simplify_eq. exists (length (w_graphs w1)), w2. eexists.
  split; [done|]. rewrite Hg2, Hg1. rewrite length_app. simpl.
  split; [lia|]. split.
  - rewrite lookup_app_l by (rewrite length_app; simpl; lia).
    rewrite lookup_app_r by lia. rewrite Nat.sub_diag. reflexivity.
  - split.
    + rewrite lookup_app_r by (rewrite length_app; simpl; lia).
      rewrite length_app. simpl.
      replace (length (w_graphs w) + 1 - (length (w_graphs w) + 1)) with 0 by lia.
      reflexivity.
    + by rewrite Hcc, Hcs.
Qed.

Lemma create_graph_twice_shares_snapshot_witness :
  exists gid1 w1 gid2 w2 g,
    _create_graph sample_self sample_built = inr (gid1, w1) /\
    _create_graph sample_self w1 = inr (gid2, w2) /\
    gid2 = S gid1 /\
    w_graphs w2 !! gid1 = Some g /\
    w_graphs w2 !! gid2 = Some g /\
    scraper_config (entry_point g) = copy_config sample_self /\
    node_schema (entry_point g) = copy_schema sample_self.
Proof.
  do 2 eexists.
  assert (H1 : _create_graph sample_self sample_built
               = inr (1, mk_world (w_heap sample_built) [sample_graph; sample_graph]))
    by reflexivity.
  destruct (create_graph_twice_shares_snapshot sample_self sample_built _ _ H1)
    as (gid2 & w2 & g & H).
  exists gid2, w2, g. split; [exact H1 | exact H].
Defined.

(** X7: every graph [_create_graph] builds is well-formed: its entry
    point and the ends of its edge are among its nodes, its two nodes
    are distinct, and no edge leads back into the entry point. *)
Theorem create_graph_wf (self : instance) (w : world) (gid : nat) (w' : world)
    (g : BaseGraph) :
  _create_graph self w = inr (gid, w') ->
  w_graphs w' !! gid = Some g ->
  graph_wf g.
Proof.
  intros Hg Hl.
  destruct (create_graph_lookup _ _ _ _ _ Hg Hl)
    as (cc & cs & llm & sch & _ & _ & _ & _ & ->).
  unfold graph_wf. simpl. split; [set_solver|]. split.
  - apply NoDup_cons. split; [|apply NoDup_singleton].
    intros Hin. apply list_elem_of_singleton in Hin. discriminate Hin.
  - split.
    + intros e He. apply list_elem_of_singleton in He as ->. simpl.
      split; [set_solver|]. split; [set_solver|]. discriminate.
    + intros e He. apply list_elem_of_singleton in He as ->. simpl. discriminate.
Qed.

Lemma create_graph_wf_witness : graph_wf sample_graph.
Proof.
  apply (create_graph_wf sample_self (mk_world [] []) 0 (mk_world [] [sample_graph]));
    reflexivity.
Defined.

(** * Further properties of the constructor *)

Lemma deepcopy_immediate (h : heap) (v : value) :
  is_immediate v -> deepcopy h v = Some (h, v).
Proof. by destruct v. Qed.

(** The state after the two copy statements, before the superclass
    constructor runs: the configuration snapshot and the schema snapshot
    occupy two adjacent closed regions of new objects. *)
Lemma snapshots_regions (config schema : value) (w : world)
    (self0 : instance) (w0 : world) :
  wf_heap (w_heap w) ->
  val_below (length (w_heap w)) config ->
  val_below (length (w_heap w)) schema ->
  snapshots config schema w = inr (self0, w0) ->
  exists cc cs n1,
    self0 = mk_instance (Some cc) (Some cs) None None None None None None None None /\
    w_graphs w0 = w_graphs w /\
    length (w_heap w) <= n1 <= length (w_heap w0) /\
    (forall a, a < length (w_heap w) -> w_heap w0 !! a = w_heap w !! a) /\
    val_within (length (w_heap w)) n1 cc /\
    val_within n1 (length (w_heap w0)) cs /\
    region_closed (length (w_heap w)) n1 (w_heap w0) /\
    region_closed n1 (length (w_heap w0)) (w_heap w0) /\
    (forall d, reify d (w_heap w0) cc = reify d (w_heap w) config) /\
    (forall d, reify d (w_heap w0) cs = reify d (w_heap w) schema).
Proof.
  intros Hwf Hc Hs Hsnap. destruct w as [h gs]. simpl in *.
  destruct (deepcopy_copied h config Hwf Hc) as (h1 & cc & E1 & C1).
  pose proof (deepcopy_wf _ _ _ _ Hwf C1) as Hwf1.
  pose proof (copied_len C1) as Hl1.
  assert (Hs1 : val_below (length h1) schema).
  { destruct schema; simpl in *; try done. lia. }
  destruct (deepcopy_copied h1 schema Hwf1 Hs1) as (h2 & cs & E2 & C2).
  pose proof (copied_len C2) as Hl2.
  unfold snapshots, safe_deepcopy in Hsnap. simpl in Hsnap.
  rewrite E1, E2 in Hsnap. injection Hsnap as <- <-. simpl.
  exists cc, cs, (length h1). split; [done|]. split; [done|]. split; [lia|].
  split; [intros a Ha; rewrite (copied_old C2) by lia; by apply C1|].
  split; [apply C1|]. split; [apply C2|].
  split.
  { eapply region_closed_eq; [apply C1|]. intros a Ha. apply C2. lia. }
  split; [apply C2|]. split.
  - intros d.
    rewrite (reify_region (length h) (length h1) h1 h2 (copied_closed C1))
      by (try apply C1; intros a Ha; apply C2; lia).
    apply C1.
  - intros d. rewrite (copied_same C2).
    apply (reify_region 0 (length h) h h1 (wf_heap_closed _ Hwf)).
    + intros a Ha. apply C1. lia.
    + by apply val_below_within.
Qed.

Tactic Notation "solve_super_keeps" integer(n) :=
  let Hs := fresh "Hs" in let Hb := fresh "Hb" in
  let a := fresh "a" in let Ha := fresh "Ha" in
  intros ? ? ? ? Hs Hb;
  vm_compute in Hs; injection Hs as <- <-;
  vm_compute in Hb; injection Hb as <- <-;
  split; [reflexivity|]; split; [reflexivity|];
  intros a Ha; simpl in Ha;
  do n (destruct a as [|a]; [first [lia | reflexivity]|]); lia.

Lemma shared_heap_wf : wf_heap shared_heap.
Proof. solve_wf_heap. Qed.

Lemma shared_super_keeps_snapshots :
  super_keeps_snapshots base_init_example (VStr "Summarize pricing") (VRef 4)
    (VRef 0) (VRef 2) shared_world.
Proof. solve_super_keeps 11. Qed.

Lemma class_super_keeps_snapshots :
  super_keeps_snapshots base_init_example (VStr "Summarize pricing") (VRef 2)
    (VRef 0) (VClass "Product") sample_world.
Proof. solve_super_keeps 7. Qed.

(** X8: a schema that is a mutable object (a dict such as the [{}] of
    the class docstring, or a list) gets a deep copy of its own.
    [copy_schema] refers to an object allocated by the constructor; the
    schema bound into the iterator node reads, after construction, as
    the caller's schema did on entry, and no write to an object outside
    the constructor's snapshots changes what it reads. *)
Theorem schema_snapshot_independent (super_init : base_init)
    (prompt source config : value) (sa : addr) (w : world)
    (self : instance) (w' : world) :
  wf_heap (w_heap w) ->
  val_below (length (w_heap w)) config ->
  sa < length (w_heap w) ->
  super_keeps_snapshots super_init prompt source config (VRef sa) w ->
  __init__ super_init prompt source config (VRef sa) w = inr (self, w') ->
  exists ca self0 w0,
    snapshots config (VRef sa) w = inr (self0, w0) /\
    copy_schema self = Some (VRef ca) /\
    length (w_heap w) <= ca < length (w_heap w0) /\
    (forall w1 gid w2 g,
        _create_graph self w1 = inr (gid, w2) -> w_graphs w2 !! gid = Some g ->
        node_schema (entry_point g) = Some (VRef ca)) /\
    (forall d, reify d (w_heap w') (VRef ca) = reify d (w_heap w) (VRef sa)) /\
    forall mus,
      Forall (spares (length (w_heap w)) (length (w_heap w0))) mus ->
      forall d, reify d (apply_mutations (w_heap w') mus) (VRef ca)
                = reify d (w_heap w') (VRef ca).
Proof.
  intros Hwf Hc Hsa Hkeep Hinit.
  destruct (init_snapshot super_init prompt source config (VRef sa) w self w'
              Hwf Hc Hsa Hkeep Hinit)
    as (cc & cs & self0 & w0 & Hsnap & _ & Hcs & Hlt & _ & Hin & Hcl & _ & Hsame).
  assert (exists ca, cs = VRef ca) as [ca ->].
  { pose proof (Hsame 1) as H1. simpl in H1.
    destruct (lookup_lt_is_Some_2 _ _ Hsa) as [o Ho]. rewrite Ho in H1.
    destruct cs as [| | | | |ca]; [by destruct o..|]. by exists ca. }
  exists ca, self0, w0. split; [done|]. split; [done|]. split; [exact Hin|].
  split; [|split; [done|]].
  - intros w1 gid w2 g Hg Hl.
    destruct (create_graph_lookup _ _ _ _ _ Hg Hl) as (cc' & cs' & llm & sch & _ & H2 & _ & _ & ->).
    rewrite Hcs in H2. by injection H2 as <-.
  - intros mus Hmus d.
    apply (reify_region (length (w_heap w)) (length (w_heap w0))); [done| |done].
    intros a Ha. apply (apply_mutations_frame _ _ _ Hmus); [done | by apply Hlt].
Qed.

(** The caller rewrites its schema dict and the list inside it; the
    schema of the iterator node still reads as passed. *)
Lemma schema_snapshot_independent_witness :
  exists self w',
    __init__ base_init_example (VStr "Summarize pricing") (VRef 4) (VRef 0) (VRef 2)
      shared_world = inr (self, w') /\
    copy_schema self = Some (VRef 9) /\
    reify 3 (apply_mutations (w_heap w')
               [MWrite 2 (ODict [("name", VStr "str")]); MWrite 3 (OList [])]) (VRef 2)
      = TDict [("name", TAtom (VStr "str"))] /\
    reify 3 (apply_mutations (w_heap w')
               [MWrite 2 (ODict [("name", VStr "str")]); MWrite 3 (OList [])]) (VRef 9)
      = TDict [("title", TAtom (VStr "str")); ("tags", TList [TAtom (VStr "price")])] /\
    reify 3 shared_heap (VRef 2)
      = TDict [("title", TAtom (VStr "str")); ("tags", TList [TAtom (VStr "price")])].
Proof.
  do 2 eexists. split; [vm_compute; reflexivity|].
  match goal with
  | |- copy_schema ?s = _ /\ reify _ (apply_mutations (w_heap ?w') _) _ = _ /\ _ =>
      assert (Hinit : __init__ base_init_example (VStr "Summarize pricing") (VRef 4)
                        (VRef 0) (VRef 2) shared_world = inr (s, w'))
        by (vm_compute; reflexivity)
  end.
  destruct (schema_snapshot_independent base_init_example (VStr "Summarize pricing")
              (VRef 4) (VRef 0) 2 shared_world _ _
              shared_heap_wf ltac:(simpl; lia) ltac:(simpl; lia)
              shared_super_keeps_snapshots Hinit)
    as (ca & self0 & w0 & Hsnap & Hcs & _ & _ & Hsame & Hmus).
  simpl in Hcs. injection Hcs as <-.
  split; [reflexivity|]. split; [reflexivity|]. split; [|reflexivity].
  rewrite Hmus.
  - rewrite Hsame. reflexivity.
  - vm_compute in Hsnap. injection Hsnap as <- <-.
    repeat constructor; simpl; lia.
Defined.

(** X9: a schema that is not a mutable object (the declared parameter
    type is a class or [None]) is returned by [deepcopy] as it is: the
    object's [copy_schema] is the very value the caller passed. *)
Theorem immediate_schema_is_kept (super_init : base_init)
    (prompt source config schema : value) (w : world) (self : instance) (w' : world) :
  wf_heap (w_heap w) ->
  val_below (length (w_heap w)) config ->
  is_immediate schema ->
  super_keeps_snapshots super_init prompt source config schema w ->
  __init__ super_init prompt source config schema w = inr (self, w') ->
  copy_schema self = Some schema /\
  forall w1 gid w2 g,
    _create_graph self w1 = inr (gid, w2) -> w_graphs w2 !! gid = Some g ->
    node_schema (entry_point g) = Some schema.
Proof.
  intros Hwf Hc Him Hkeep Hinit.
  destruct (deepcopy_copied _ config Hwf Hc) as (h1 & cc & E1 & C1).
  assert (Esnap : snapshots config schema w
                  = inr (mk_instance (Some cc) (Some schema) None None None None None None
                           None None, set_heap w h1)).
  { unfold snapshots, safe_deepcopy. rewrite E1.
    by rewrite (deepcopy_immediate h1 schema Him). }
  unfold __init__ in Hinit. rewrite Esnap in Hinit. simpl in Hinit.
  destruct (Hkeep _ _ _ _ Esnap Hinit) as (_ & Ks & _). simpl in Ks.
  split; [done|].
  intros w1 gid w2 g Hg Hl.
  destruct (create_graph_lookup _ _ _ _ _ Hg Hl) as (cc' & cs' & llm & sch & _ & H2 & _ & _ & ->).
  rewrite Ks in H2. by injection H2 as <-.
Qed.

Lemma immediate_schema_is_kept_witness :
  exists self w',
    __init__ base_init_example (VStr "Summarize pricing") (VRef 2) (VRef 0)
      (VClass "Product") sample_world = inr (self, w') /\
    copy_schema self = Some (VClass "Product") /\
    forall w1 gid w2 g,
      _create_graph self w1 = inr (gid, w2) -> w_graphs w2 !! gid = Some g ->
      node_schema (entry_point g) = Some (VClass "Product").
Proof.
  do 2 eexists. split; [vm_compute; reflexivity|].
  eapply (immediate_schema_is_kept base_init_example (VStr "Summarize pricing") (VRef 2)
            (VRef 0) (VClass "Product") sample_world).
  - exact sample_heap_wf.
  - simpl. lia.
  - exact I.
  - exact class_super_keeps_snapshots.
  - vm_compute. reflexivity.
Defined.

(** X10: the two snapshots share nothing with each other, even when the
    caller's configuration and schema share an object: each copy
    statement copies on its own.  A write to any object outside the
    configuration snapshot, those of the schema snapshot included,
    leaves the configuration snapshot reading as it did, and the other
    way round. *)
Theorem snapshots_are_disjoint (config schema : value) (w : world)
    (self0 : instance) (w0 : world) :
  wf_heap (w_heap w) ->
  val_below (length (w_heap w)) config ->
  val_below (length (w_heap w)) schema ->
  snapshots config schema w = inr (self0, w0) ->
  exists cc cs n1,
    copy_config self0 = Some cc /\ copy_schema self0 = Some cs /\
    length (w_heap w) <= n1 <= length (w_heap w0) /\
    val_within (length (w_heap w)) n1 cc /\
    val_within n1 (length (w_heap w0)) cs /\
    (forall mus, Forall (spares (length (w_heap w)) n1) mus ->
       forall d, reify d (apply_mutations (w_heap w0) mus) cc = reify d (w_heap w0) cc) /\
    (forall mus, Forall (spares n1 (length (w_heap w0))) mus ->
       forall d, reify d (apply_mutations (w_heap w0) mus) cs = reify d (w_heap w0) cs).
Proof.
  intros Hwf Hc Hs Hsnap.
  destruct (snapshots_regions _ _ _ _ _ Hwf Hc Hs Hsnap)
    as (cc & cs & n1 & -> & _ & Hn & _ & Hcc & Hcs & Hcl1 & Hcl2 & _ & _).
  exists cc, cs, n1. repeat (split; [done|]). split.
  - intros mus Hmus d. apply (reify_region (length (w_heap w)) n1); [done| |done].
    intros a Ha. apply (apply_mutations_frame _ _ _ Hmus); [done|lia].
  - intros mus Hmus d. apply (reify_region n1 (length (w_heap w0))); [done| |done].
    intros a Ha. apply (apply_mutations_frame _ _ _ Hmus); [done|lia].
Qed.

(** In the caller's heap one write changes both the schema and the
    configuration, which share the dict at address 2; after the
    snapshots, a write to the schema snapshot (address 9) leaves the
    configuration snapshot (address 5) as it was. *)
Lemma snapshots_are_disjoint_witness :
  reify 3 (apply_mutations shared_heap [MWrite 2 (ODict [])]) (VRef 0)
    = TDict [("llm", TDict [("model", TAtom (VStr "openai/gpt-3.5-turbo"));
                            ("temperature", TAtom (VInt 0))]);
             ("output", TDict [])] /\
  exists self0 w0,
    snapshots (VRef 0) (VRef 2) shared_world = inr (self0, w0) /\
    copy_config self0 = Some (VRef 5) /\ copy_schema self0 = Some (VRef 9) /\
    reify 3 (apply_mutations (w_heap w0) [MWrite 9 (ODict [])]) (VRef 9) = TDict [] /\
    reify 3 (apply_mutations (w_heap w0) [MWrite 9 (ODict [])]) (VRef 5)
      = reify 3 (w_heap w0) (VRef 5).
Proof.
  split; [reflexivity|].
  do 2 eexists. split; [vm_compute; reflexivity|].
  split; [reflexivity|]. split; [reflexivity|]. split; [reflexivity|].
  match goal with
  | |- reify _ (apply_mutations (w_heap ?w0) _) _ = _ =>
      destruct (snapshots_are_disjoint (VRef 0) (VRef 2) shared_world
                  (mk_instance (Some (VRef 5)) (Some (VRef 9)) None None None None None
                     None None None) w0)
        as (cc & cs & n1 & Hcc & Hcs & Hn & Hwc & Hws & Hmc & _)
  end.
  - exact shared_heap_wf.
  - simpl. lia.
  - simpl. lia.
  - vm_compute. reflexivity.
  - simpl in Hcc, Hcs. injection Hcc as <-. injection Hcs as <-.
    apply Hmc. simpl in Hws. constructor; [|constructor]. simpl. lia.
Defined.

(** X11: taking the snapshots reads the caller's objects and writes to
    none of them: every object that existed on entry is unchanged, so
    every value of the caller reads as before, and no graph is built. *)
Theorem snapshots_leave_caller_objects (config schema : value) (w : world)
    (self0 : instance) (w0 : world) :
  wf_heap (w_heap w) ->
  val_below (length (w_heap w)) config ->
  val_below (length (w_heap w)) schema ->
  snapshots config schema w = inr (self0, w0) ->
  w_graphs w0 = w_graphs w /\
  (forall a, a < length (w_heap w) -> w_heap w0 !! a = w_heap w !! a) /\
  (forall v d, val_below (length (w_heap w)) v ->
     reify d (w_heap w0) v = reify d (w_heap w) v) /\
  wf_heap (w_heap w0).
Proof.
  intros Hwf Hc Hs Hsnap.
  destruct (snapshots_regions _ _ _ _ _ Hwf Hc Hs Hsnap)
    as (cc & cs & n1 & -> & Hg & Hn & Hold & Hcc & Hcs & Hcl1 & Hcl2 & _ & _).
  split; [done|]. split; [done|]. split.
  - intros v d Hv.
    apply (reify_region 0 (length (w_heap w))).
    + by apply wf_heap_closed.
    + intros a Ha. apply Hold. lia.
    + by apply val_below_within.
  - intros a o Ho. destruct (decide (a < length (w_heap w))) as [Hlt|Hge].
    + rewrite Hold in Ho by done.
      eapply Forall_impl; [by eapply Hwf|].
      intros [| | | | |c]; simpl; try done. lia.
    + apply lookup_lt_Some in Ho as Hl.
      destruct (decide (a < n1)) as [H1|H1].
      * eapply Forall_impl; [eapply Hcl1; [|exact Ho]; lia|].
        intros [| | | | |c]; simpl; try done. lia.
      * eapply Forall_impl; [eapply Hcl2; [|exact Ho]; lia|].
        intros [| | | | |c]; simpl; try done. lia.
Qed.

Lemma snapshots_leave_caller_objects_witness :
  exists self0 w0,
    snapshots (VRef 0) (VRef 2) shared_world = inr (self0, w0) /\
    w_graphs w0 = w_graphs shared_world /\
    (forall a, a < length (w_heap shared_world) ->
       w_heap w0 !! a = w_heap shared_world !! a) /\
    (forall v d, val_below (length (w_heap shared_world)) v ->
       reify d (w_heap w0) v = reify d (w_heap shared_world) v) /\
    wf_heap (w_heap w0).
Proof.
  do 2 eexists. split; [vm_compute; reflexivity|].
  eapply (snapshots_leave_caller_objects (VRef 0) (VRef 2) shared_world).
  - exact shared_heap_wf.
  - simpl. lia.
  - simpl. lia.
  - vm_compute. reflexivity.
Defined.
